(** * apex-utils: the SOQL extractor and the explain-plan generator

    A shallow embedding of [ApexSOQLExtractor.py] and [SOQLExplainPlan.py],
    with the properties of their specification stated and settled on it.

    Text.  A Python [str] is a sequence of code points.  The embedding takes
    the code points below 256, one [ascii] each, so a [str] is a [list ascii].
    On these code points the tables of the Python library ([str.isspace],
    [str.lower], the classes [\s] and [\w] of [re], case-insensitive
    comparison of a literal) are the ones written out below.  Beyond them
    the comparison of [re] under [IGNORECASE] accepts more than [str.lower]
    tells (U+017F for [s], U+0130 and U+0131 for [i]).  So what a pattern
    finds is stated through the comparison of the matcher, [Re.same], with
    which [Stated.Spells] reads a keyword; [Py.lower] stands where the
    programs call [str.lower].

    Layout.  [Py] holds the string functions of the Python library the two
    programs call, [Re] the regular expressions (the patterns of the programs
    as syntax trees, with a backtracking matcher and the scanning functions
    [search], [finditer], [findall], [sub]), [Json] what [json.dumps] prints,
    [Extractor] and [Explainer] the two programs.  The lemmas follow the
    definitions. *)

From Stdlib Require Import String.
From Stdlib Require Import List Ascii Bool Arith NArith ZArith Lia DecimalString
  Sorted.
Import ListNotations.
Open Scope string_scope.
Open Scope list_scope.

(** A [str] is a list of characters; a string literal stands for its list. *)
Definition str : Type := list ascii.

Coercion list_ascii_of_string : string >-> list.

Definition str_eq_dec : forall a b : str, {a = b} + {a <> b} :=
  list_eq_dec ascii_dec.

(* ================================================================= *)
(** ** The Python string library *)

Module Py.

Definition ord (c : ascii) : N := N_of_ascii c.

Definition between (lo hi : N) (c : ascii) : bool :=
  ((lo <=? ord c) && (ord c <=? hi))%N.

(** [str.isspace] on one character; also the whitespace of [str.split()]
    and [str.strip()], and the class [\s]. *)
Definition isspace (c : ascii) : bool :=
  between 9 13 c || between 28 32 c || (ord c =? 133)%N || (ord c =? 160)%N.

(** [str.isalnum]: letters, decimal digits and the other numeric characters. *)
Definition isalnum (c : ascii) : bool :=
  between 48 57 c || between 65 90 c || between 97 122 c
  || (ord c =? 170)%N || between 178 179 c || (ord c =? 181)%N
  || between 185 186 c || between 188 190 c
  || between 192 214 c || between 216 246 c || between 248 255 c.

(** The class [\w]: alphanumeric or the underscore. *)
Definition isword (c : ascii) : bool := isalnum c || (ord c =? 95)%N.

Definition isupper (c : ascii) : bool :=
  between 65 90 c || between 192 214 c || between 216 222 c.

(** [str.lower] on one character, and on a string. *)
Definition lower_char (c : ascii) : ascii :=
  if isupper c then ascii_of_N (ord c + 32) else c.

Definition lower (s : str) : str := map lower_char s.

(** [c in chars], for one character. *)
Definition char_in (c : ascii) (chars : str) : bool :=
  existsb (Ascii.eqb c) chars.

(** [s.count(c)] for a one-character [c]. *)
Definition count (c : ascii) (s : str) : nat :=
  count_occ ascii_dec s c.

(** [s[a:b]] for [0 <= a], [0 <= b]. *)
Definition slice (a b : nat) (s : str) : str := firstn (b - a) (skipn a s).

(** [s.lstrip(..)], [s.rstrip(..)], [s.strip(..)]: the characters to strip
    are given by a predicate. *)
Fixpoint lstrip_by (p : ascii -> bool) (s : str) : str :=
  match s with
  | [] => []
  | c :: s' => if p c then lstrip_by p s' else s
  end.

Definition rstrip_by (p : ascii -> bool) (s : str) : str :=
  rev (lstrip_by p (rev s)).

Definition strip_by (p : ascii -> bool) (s : str) : str :=
  rstrip_by p (lstrip_by p s).

(** [s.strip()] *)
Definition strip (s : str) : str := strip_by isspace s.

(** [s.strip(chars)] *)
Definition strip_chars (chars : str) (s : str) : str :=
  strip_by (fun c => char_in c chars) s.

(** [s.split()]: the maximal runs of characters that are not whitespace.
    [word] is the run being read. *)
Fixpoint split_from (word : str) (s : str) : list str :=
  match s with
  | [] => match word with [] => [] | _ => [word] end
  | c :: s' =>
      if isspace c
      then match word with
           | [] => split_from [] s'
           | _ => word :: split_from [] s'
           end
      else split_from (word ++ [c]) s'
  end.

Definition split (s : str) : list str := split_from [] s.

(** [sep.join(parts)] *)
Fixpoint join (sep : str) (parts : list str) : str :=
  match parts with
  | [] => []
  | [p] => p
  | p :: rest => p ++ sep ++ join sep rest
  end.

(** [s.startswith(pre)] and [s.endswith(suffix)] *)
Fixpoint startswith (s pre : str) : bool :=
  match pre, s with
  | [], _ => true
  | p :: pre', c :: s' => Ascii.eqb c p && startswith s' pre'
  | _ :: _, [] => false
  end.

Definition endswith (s suffix : str) : bool :=
  startswith (rev s) (rev suffix).

(** [a < b] on strings: by code points, a proper prefix first. *)
Fixpoint str_ltb (a b : str) : bool :=
  match a, b with
  | _, [] => false
  | [], _ :: _ => true
  | x :: a', y :: b' =>
      if (ord x <? ord y)%N then true
      else if (ord y <? ord x)%N then false
      else str_ltb a' b'
  end.

(** [sorted(l)]: a stable sort that compares with [<]. *)
Fixpoint insert_sorted (x : str) (l : list str) : list str :=
  match l with
  | [] => [x]
  | y :: l' => if str_ltb y x then y :: insert_sorted x l' else x :: l
  end.

Fixpoint sorted (l : list str) : list str :=
  match l with
  | [] => []
  | x :: l' => insert_sorted x (sorted l')
  end.

(** [set(l)], as the list of its distinct elements.  Python fixes no order
    for the elements of a set; the programs only read a set through
    [sorted], whose result does not depend on that order. *)
Definition set (l : list str) : list str := nodup str_eq_dec l.

(** [str(b)] for a [bool], and [str(n)] for an [int]. *)
Definition str_of_bool (b : bool) : str := if b then "True" else "False".

Definition str_of_int (z : Z) : str :=
  list_ascii_of_string (NilZero.string_of_int (Z.to_int z)).

End Py.

(* ================================================================= *)
(** ** Regular expressions: the part of [re] the programs use *)

Module Re.

(** A character class: what one position of a pattern accepts. *)
Inductive cclass : Type :=
| Lit (c : ascii)            (* a literal character *)
| Space                      (* \s *)
| Word                       (* \w *)
| Dot                        (* . *)
| OneOf (l : str)            (* [...] *)
| NoneOf (l : str).          (* [^...] *)

(** The patterns.  Every repetition in the programs' patterns is over one
    character class ([\s*], [.*?], [\w+], [[^\]]+], ...), so the repetitions
    carry a class.  The one group of the programs, in [dml_pattern], encloses
    the whole pattern but its two [\b], which match no character: the text of
    that group is the text of the match, and groups are left out. *)
Inductive regex : Type :=
| Eps                        (* the empty pattern *)
| Chr (c : cclass)           (* one character *)
| Bound                      (* \b *)
| Seq (r1 r2 : regex)        (* r1r2 *)
| Alt (r1 r2 : regex)        (* r1|r2 *)
| Star (c : cclass)          (* c*, greedy *)
| StarLazy (c : cclass)      (* c*? *)
| Plus (c : cclass)          (* c+, greedy *)
| PlusLazy (c : cclass).     (* c+? *)

Record flags : Type := { IGNORECASE : bool; DOTALL : bool }.

Record pattern : Type := { expr : regex; flag : flags }.

(** A literal string, character by character. *)
Fixpoint lit (w : str) : regex :=
  match w with
  | [] => Eps
  | [c] => Chr (Lit c)
  | c :: w' => Seq (Chr (Lit c)) (lit w')
  end.

(** Does the class accept the character?  Under [IGNORECASE] a literal is
    compared through [lower]; without [DOTALL] the dot refuses the newline. *)
Definition same_char (fl : flags) (c ch : ascii) : bool :=
  if IGNORECASE fl
  then Ascii.eqb (Py.lower_char ch) (Py.lower_char c)
  else Ascii.eqb ch c.

Definition accepts (fl : flags) (cl : cclass) (ch : ascii) : bool :=
  match cl with
  | Lit c => same_char fl c ch
  | Space => Py.isspace ch
  | Word => Py.isword ch
  | Dot => DOTALL fl || negb (Ascii.eqb ch "010")
  | OneOf l => existsb (fun c => same_char fl c ch) l
  | NoneOf l => negb (existsb (fun c => same_char fl c ch) l)
  end.

(** The length of the longest prefix of [s] made of accepted characters. *)
Fixpoint run (p : ascii -> bool) (s : str) : nat :=
  match s with
  | [] => 0
  | c :: s' => if p c then S (run p s') else 0
  end.

(** [\b] looks at the character before and the character after. *)
Definition is_word (o : option ascii) : bool :=
  match o with
  | Some c => Py.isword c
  | None => false
  end.

(** The character before the position reached after [n] characters of [s],
    when [prev] is the character before [s]. *)
Definition prev_at (prev : option ascii) (s : str) (n : nat) : option ascii :=
  match n with
  | 0 => prev
  | S k => nth_error s k
  end.

(** The backtracking matcher.  [ends fl r prev s] lists, in the order in
    which backtracking tries them, the lengths of the prefixes of [s] that
    [r] matches, [prev] being the character before [s].  The match the
    library reports at this position is the first of the list. *)
Fixpoint ends (fl : flags) (r : regex) (prev : option ascii) (s : str)
  : list nat :=
  match r with
  | Eps => [0]
  | Chr c =>
      match s with
      | ch :: _ => if accepts fl c ch then [1] else []
      | [] => []
      end
  | Bound => if xorb (is_word prev) (is_word (hd_error s)) then [0] else []
  | Seq r1 r2 =>
      flat_map
        (fun n1 =>
           map (Nat.add n1) (ends fl r2 (prev_at prev s n1) (skipn n1 s)))
        (ends fl r1 prev s)
  | Alt r1 r2 => ends fl r1 prev s ++ ends fl r2 prev s
  | Star c => rev (seq 0 (S (run (accepts fl c) s)))
  | StarLazy c => seq 0 (S (run (accepts fl c) s))
  | Plus c => rev (seq 1 (run (accepts fl c) s))
  | PlusLazy c => seq 1 (run (accepts fl c) s)
  end.

Definition candidates (p : pattern) (prev : option ascii) (s : str)
  : list nat :=
  ends (flag p) (expr p) prev s.

(** [p.search(s)]: the first position with a match, and that match, as the
    span [(start, end)]. *)
Fixpoint search_from (p : pattern) (pos : nat) (prev : option ascii)
  (s : str) : option (nat * nat) :=
  match candidates p prev s with
  | n :: _ => Some (pos, pos + n)
  | [] =>
      match s with
      | [] => None
      | c :: s' => search_from p (S pos) (Some c) s'
      end
  end.

Definition search (p : pattern) (s : str) : option (nat * nat) :=
  search_from p 0 None s.

(** The matches reported at one position by the scanning functions: the
    first candidate; and when that one is empty, the scan is resumed at the
    same position for a match that is not empty. *)
Definition attempts (cands : list nat) : list nat :=
  match cands with
  | [] => []
  | 0 :: _ =>
      0 :: match find (Nat.ltb 0) cands with
           | Some n => [n]
           | None => []
           end
  | n :: _ => [n]
  end.

(** [p.finditer(s)] as the list of the spans of the matches: a scan from
    left to right, resumed at the end of each match.  [skip] counts the
    characters still covered by the last match. *)
Fixpoint scan (p : pattern) (pos : nat) (prev : option ascii) (s : str)
  (skip : nat) : list (nat * nat) :=
  let here :=
    match skip with
    | 0 => attempts (candidates p prev s)
    | S _ => []
    end in
  let skip' :=
    match skip with
    | 0 => pred (last here 0)
    | S k => k
    end in
  map (fun n => (pos, pos + n)) here
  ++ match s with
     | [] => []
     | c :: s' => scan p (S pos) (Some c) s' skip'
     end.

Definition finditer (p : pattern) (s : str) : list (nat * nat) :=
  scan p 0 None s 0.

(** [m.group(0)] of the match with the given span. *)
Definition group0 (s : str) (span : nat * nat) : str :=
  Py.slice (fst span) (snd span) s.

(** [p.findall(s)], for a pattern whose matches are returned whole. *)
Definition findall (p : pattern) (s : str) : list str :=
  map (group0 s) (finditer p s).

(** [p.sub(repl, s)] for a replacement without escapes: the text between
    the matches, with [repl] in place of each match. *)
Fixpoint replace_spans (repl : str) (spans : list (nat * nat)) (pos : nat)
  (s : str) : str :=
  match spans with
  | [] => skipn pos s
  | (a, b) :: rest =>
      Py.slice pos a s ++ repl ++ replace_spans repl rest b s
  end.

Definition sub (p : pattern) (repl : str) (s : str) : str :=
  replace_spans repl (finditer p s) 0 s.

(** What a pattern matches, stated without the matcher: [Matches fl r prev
    m post] says that [r] matches the text [m] when [prev] is the character
    before [m] and [post] is the text after it. *)
Definition last_of (prev : option ascii) (m : str) : option ascii :=
  prev_at prev m (length m).

Fixpoint Matches (fl : flags) (r : regex) (prev : option ascii) (m post : str)
  : Prop :=
  match r with
  | Eps => m = []
  | Chr c => exists ch, m = [ch] /\ accepts fl c ch = true
  | Bound => m = [] /\ is_word prev <> is_word (hd_error post)
  | Seq r1 r2 =>
      exists m1 m2,
        m = m1 ++ m2
        /\ Matches fl r1 prev m1 (m2 ++ post)
        /\ Matches fl r2 (last_of prev m1) m2 post
  | Alt r1 r2 => Matches fl r1 prev m post \/ Matches fl r2 prev m post
  | Star c | StarLazy c => forallb (accepts fl c) m = true
  | Plus c | PlusLazy c => m <> [] /\ forallb (accepts fl c) m = true
  end.

(** [s] has an occurrence of the pattern. *)
Definition Occurs (p : pattern) (s : str) : Prop :=
  exists pre m post,
    s = pre ++ m ++ post
    /\ Matches (flag p) (expr p) (last_of None pre) m post.

(** The candidates at offset [k] of [s]. *)
Definition match_at (p : pattern) (prev : option ascii) (s : str) (k : nat)
  : list nat :=
  candidates p (prev_at prev s k) (skipn k s).

(** The literal [c] matches the character [ch]. *)
Definition same (fl : flags) (c ch : ascii) : Prop := same_char fl c ch = true.

Module Notations.
Declare Scope regex_scope.
Delimit Scope regex_scope with regex.
Infix ";;" := Seq (at level 61, right associativity) : regex_scope.
Infix "<|>" := Alt (at level 62, right associativity) : regex_scope.
End Notations.

End Re.

(* ================================================================= *)
(** ** JSON values and [json.dumps] *)

Module Json.

#[local] Set Warnings "-register-all".

(** What [response.json()] returns.  An object is its list of members, in
    the order of the [dict]; [F] stands for the Python [float]. *)
Inductive value (F : Type) : Type :=
| Null
| Bool (b : bool)
| Int (z : Z)
| Float (f : F)
| String (s : str)
| Array (items : list (value F))
| Object (members : list (str * value F)).

Arguments Null {F}.
Arguments Bool {F} b.
Arguments Int {F} z.
Arguments Float {F} f.
Arguments String {F} s.
Arguments Array {F} items.
Arguments Object {F} members.

Definition dquote : str := ["034"%char].

Definition hex_digit (n : N) : ascii :=
  nth (N.to_nat n) (list_ascii_of_string "0123456789abcdef") "0"%char.

(** One character of a string, as [json.dumps] writes it with
    [ensure_ascii]: the printable ASCII characters stand for themselves but
    the quote and the backslash; the rest is escaped. *)
Definition escape_char (c : ascii) : str :=
  let n := Py.ord c in
  if (n =? 34)%N then "\" ++ dquote
  else if (n =? 92)%N then "\\"
  else if (n =? 10)%N then "\n"
  else if (n =? 13)%N then "\r"
  else if (n =? 9)%N then "\t"
  else if (n =? 8)%N then "\b"
  else if (n =? 12)%N then "\f"
  else if Py.between 32 126 c then [c]
  else "\u00" ++ [hex_digit (n / 16); hex_digit (n mod 16)].

Definition quote (s : str) : str :=
  dquote ++ flat_map escape_char s ++ dquote.

(** The line break before an item at nesting depth [level], for [indent=2]. *)
Definition newline_indent (level : nat) : str :=
  "010"%char :: repeat " "%char (2 * level).

Section Dumps.

Variable F : Type.
Variable float_repr : F -> str.

(** [json.dumps(v, indent=2)], at nesting depth [level]. *)
Fixpoint dumps_at (level : nat) (v : value F) : str :=
  match v with
  | Null => "null"
  | Bool true => "true"
  | Bool false => "false"
  | Int z => Py.str_of_int z
  | Float f => float_repr f
  | String s => quote s
  | Array [] => "[]"
  | Array items =>
      "[" ++ newline_indent (S level)
      ++ Py.join ("," ++ newline_indent (S level))
           (map (dumps_at (S level)) items)
      ++ newline_indent level ++ "]"
  | Object [] => "{}"
  | Object members =>
      "{" ++ newline_indent (S level)
      ++ Py.join ("," ++ newline_indent (S level))
           (map (fun kv => quote (fst kv) ++ ": " ++ dumps_at (S level) (snd kv))
              members)
      ++ newline_indent level ++ "}"
  end.

Definition dumps (v : value F) : str := dumps_at 0 v.

(** [d.get(key, default)] on a [dict]. *)
Definition get (key : str) (default : value F) (members : list (str * value F))
  : value F :=
  match find (fun kv => if str_eq_dec (fst kv) key then true else false) members with
  | Some kv => snd kv
  | None => default
  end.

End Dumps.

Arguments get {F} key default members.

End Json.

(* ================================================================= *)
(** ** ApexSOQLExtractor.py *)

Module Extractor.

Import Re.Notations.
Local Open Scope regex_scope.

Definition I_S : Re.flags := {| Re.IGNORECASE := true; Re.DOTALL := true |}.
Definition I : Re.flags := {| Re.IGNORECASE := true; Re.DOTALL := false |}.

Definition quotes : str := ["'"%char; "034"%char].

(** [\[\s*SELECT.*?\]] with [IGNORECASE | DOTALL] *)
Definition soql_pattern : Re.pattern :=
  {| Re.expr :=
       Re.Chr (Re.Lit "[") ;; Re.Star Re.Space ;; Re.lit "SELECT"
       ;; Re.StarLazy Re.Dot ;; Re.Chr (Re.Lit "]");
     Re.flag := I_S |}.

(** [FIND\s+['"].+?['"]\s+IN\s+ALL\s+FIELDS\s+RETURNING.+?;] with
    [IGNORECASE | DOTALL] *)
Definition sosl_pattern : Re.pattern :=
  {| Re.expr :=
       Re.lit "FIND" ;; Re.Plus Re.Space ;; Re.Chr (Re.OneOf quotes)
       ;; Re.PlusLazy Re.Dot ;; Re.Chr (Re.OneOf quotes)
       ;; Re.Plus Re.Space ;; Re.lit "IN" ;; Re.Plus Re.Space ;; Re.lit "ALL"
       ;; Re.Plus Re.Space ;; Re.lit "FIELDS" ;; Re.Plus Re.Space
       ;; Re.lit "RETURNING" ;; Re.PlusLazy Re.Dot ;; Re.Chr (Re.Lit ";");
     Re.flag := I_S |}.

(** [\b(insert|update|delete|upsert|merge)\b] with [IGNORECASE] *)
Definition dml_pattern : Re.pattern :=
  {| Re.expr :=
       Re.Bound
       ;; (Re.lit "insert" <|> Re.lit "update" <|> Re.lit "delete"
           <|> Re.lit "upsert" <|> Re.lit "merge")
       ;; Re.Bound;
     Re.flag := I |}.

(** [@isTest|class\s+\w+\s+.*isTest] with [IGNORECASE] *)
Definition test_class_pattern : Re.pattern :=
  {| Re.expr :=
       Re.lit "@isTest"
       <|> (Re.lit "class" ;; Re.Plus Re.Space ;; Re.Plus Re.Word
            ;; Re.Plus Re.Space ;; Re.Star Re.Dot ;; Re.lit "isTest");
     Re.flag := I |}.

(** One row of the report. *)
Record QueryRecord : Type := {
  class_name : str;
  start_linenumber : nat;
  testClass : str;
  has_binding : str;
  soql_query : str;
  sosl_query : str;
  dml_operations : str
}.

(** The four results of [extract_details_from_file], from the text
    [content] of the file; each is named as in the source. *)
Definition soql_results (content : str) : list (str * nat) :=
  map
    (fun m =>
       let soql_query := Py.join " " (Py.split (Re.group0 content m)) in
       let start_pos := fst m in
       let line_number := Py.count "010" (Py.slice 0 start_pos content) + 1 in
       (soql_query, line_number))
    (Re.finditer soql_pattern content).

Definition sosl_combined (content : str) : str :=
  let sosl_matches := Re.findall sosl_pattern content in
  let sosl_queries := map (fun m => Py.join " " (Py.split m)) sosl_matches in
  Py.join " | " sosl_queries.

Definition dml_ops_cleaned (content : str) : str :=
  let dml_ops := Py.set (Re.findall dml_pattern content) in
  Py.join ", " (Py.sorted (map Py.lower dml_ops)).

Definition is_test (content : str) : bool :=
  match Re.search test_class_pattern content with
  | Some _ => true
  | None => false
  end.

Definition details : Type := list (str * nat) * str * str * bool.

Definition extract_details (content : str) : details :=
  (soql_results content, sosl_combined content, dml_ops_cleaned content,
   is_test content).

(** The rows one file adds to [records] in [process_folder]. *)
Definition file_records (filename : str) (d : details) : list QueryRecord :=
  let '(soql_results, sosl_combined, dml_ops, is_test) := d in
  map
    (fun r : str * nat =>
       let (soql_query, line_number) := r in
       {| class_name := filename;
          start_linenumber := line_number;
          testClass := Py.lower (Py.str_of_bool is_test);
          has_binding := Py.lower (Py.str_of_bool (Py.char_in ":" soql_query));
          soql_query := soql_query;
          sosl_query := sosl_combined;
          dml_operations := dml_ops |})
    soql_results.

(** [os.path.join(root, filename)] for a file name met by [os.walk]. *)
Definition path_join (root filename : str) : str :=
  match root with
  | [] => filename
  | _ => if Py.endswith root "/" then root ++ filename
         else root ++ "/" ++ filename
  end.

Section Files.

(** The file system: the text [open(file_path, 'r', encoding='utf-8')]
    reads, or [None] when opening or decoding raises. *)
Variable read_text : str -> option str.

Definition extract_details_from_file (file_path : str) : option details :=
  match read_text file_path with
  | Some content => Some (extract_details content)
  | None => None
  end.

(** The inner loop of [process_folder], over the files of one directory;
    [None] when a file cannot be read, which ends the run. *)
Fixpoint process_files (root : str) (files : list str)
  (records : list QueryRecord) : option (list QueryRecord) :=
  match files with
  | [] => Some records
  | filename :: rest =>
      if Py.endswith filename ".cls"
      then
        match extract_details_from_file (path_join root filename) with
        | Some d => process_files root rest (records ++ file_records filename d)
        | None => None
        end
      else process_files root rest records
  end.

(** The outer loop, over what [os.walk] yields: each directory with the
    names of its files. *)
Fixpoint process_walk (walk : list (str * list str))
  (records : list QueryRecord) : option (list QueryRecord) :=
  match walk with
  | [] => Some records
  | (root, files) :: rest =>
      match process_files root files records with
      | Some records' => process_walk rest records'
      | None => None
      end
  end.

Definition process_folder (walk : list (str * list str))
  : option (list QueryRecord) :=
  process_walk walk [].

End Files.

End Extractor.

(* ================================================================= *)
(** ** SOQLExplainPlan.py *)

Module Explainer.

Import Re.Notations.
Local Open Scope regex_scope.

(** [\s+WITH\s+[^\]]+] with [IGNORECASE] *)
Definition with_pattern : Re.pattern :=
  {| Re.expr :=
       Re.Plus Re.Space ;; Re.lit "WITH" ;; Re.Plus Re.Space
       ;; Re.Plus (Re.NoneOf "]");
     Re.flag := {| Re.IGNORECASE := true; Re.DOTALL := false |} |}.

Definition clean_soql (soql : str) : str :=
  let soql := Py.strip_chars "[]" soql in
  let soql := Py.strip (Re.sub with_pattern "" soql) in
  soql.

(** A row as [csv.DictReader] hands it over: the seven columns of the
    extractor's report, as text. *)
Record Row : Type := {
  class_name : str;
  start_linenumber : str;
  testClass : str;
  has_binding : str;
  soql_query : str;
  sosl_query : str;
  dml_operations : str
}.

(** The row with the two columns [process_csv] adds. *)
Record ExplainRecord : Type := {
  row : Row;
  modified_soql : str;
  explain_plan : str
}.

(** A call returns, or raises an exception, given by its message. *)
Inductive outcome (A : Type) : Type :=
| Returned (a : A)
| Raised (e : str).

Arguments Returned {A} a.
Arguments Raised {A} e.

Section Service.

Variable F : Type.
Variable float_repr : F -> str.

(** What [requests.get] returns: the status, the body, and what
    [response.json()] makes of the body ([None] when it raises). *)
Record Response : Type := {
  status_code : Z;
  text : str;
  json : option (Json.value F)
}.

(** The credentials [get_auth_details] stored. *)
Variable access_token : str.
Variable instance_url : str.

(** The network.  [requests_get log url headers] is what the call
    [requests.get(url, headers=headers)] does when [log] lists the URLs
    requested before it: a response, or an exception. *)
Variable requests_get : list str -> str -> list (str * str) -> outcome Response.

(** The state of a run of [process_csv]. *)
Record state : Type := {
  output_rows : list ExplainRecord;
  html_rows : list str;
  log : list str
}.

(** The URL and the headers of the request of [explain_soql]. *)
Definition explain_url (query : str) : str :=
  instance_url ++ "/services/data/v60.0/query/?explain=" ++ query.

Definition explain_headers : list (str * str) :=
  [ ("Authorization" : str, "Bearer " ++ access_token);
    ("Content-Type" : str, "application/json" : str) ].

(** [explain_soql]: the request is logged; the result is the string the
    function returns, or the exception the request raised. *)
Definition explain_soql (log : list str) (query : str)
  : list str * outcome str :=
  let url := explain_url query in
  let headers := explain_headers in
  match requests_get log url headers with
  | Raised e => (log ++ [url], Raised e)
  | Returned response =>
      let result : str :=
        if (status_code response =? 200)%Z
        then
          match json response return str with
          | Some (Json.Object plan) =>
              Json.dumps F float_repr (Json.get "plans" (Json.Array []) plan)
          | Some _ => "Invalid JSON in response"
          | None => "Invalid JSON in response"
          end
        else
          "Error: " ++ Py.str_of_int (status_code response)
          ++ " - " ++ text response in
      (log ++ [url], Returned result)
  end.

Definition attr (name value : str) : str :=
  " " ++ name ++ "=" ++ Json.dquote ++ value ++ Json.dquote.

Definition td (class body : str) : str :=
  "<td" ++ attr "class" class ++ ">" ++ body ++ "</td>".

Definition indent (n : nat) : str := "010"%char :: repeat " "%char n.

(** The table row appended to [html_rows]. *)
Definition html_row (r : ExplainRecord) : str :=
  indent 20 ++ "<tr" ++ attr "class" "hover:bg-gray-100 border-b" ++ ">"
  ++ indent 24 ++ td "px-4 py-2 text-sm" (class_name (row r))
  ++ indent 24
  ++ td "px-4 py-2 text-sm whitespace-pre-wrap" (soql_query (row r))
  ++ indent 24
  ++ td "px-4 py-2 text-sm whitespace-pre-wrap" (modified_soql r)
  ++ indent 24
  ++ td "px-4 py-2 text-sm whitespace-pre-wrap"
       ("<pre>" ++ explain_plan r ++ "</pre>")
  ++ indent 20 ++ "</tr>"
  ++ indent 20.

(** The test of line 78: both columns read [false], in any casing. *)
Definition dispatches (r : Row) : bool :=
  (if str_eq_dec (Py.lower (testClass r)) "false" then true else false)
  && (if str_eq_dec (Py.lower (has_binding r)) "false" then true else false).

(** The body of the loop of [process_csv], for one row. *)
Definition process_row (st : state) (r : Row) : outcome state :=
  let raw_soql := soql_query r in
  let cleaned_soql := clean_soql raw_soql in
  if dispatches r
  then
    match explain_soql (log st) cleaned_soql with
    | (log', Returned explain) =>
        let r' := {| row := r; modified_soql := cleaned_soql;
                     explain_plan := explain |} in
        Returned {| output_rows := output_rows st ++ [r'];
                    html_rows := html_rows st ++ [html_row r'];
                    log := log' |}
    | (_, Raised e) => Raised e
    end
  else
    let r' := {| row := r; modified_soql := cleaned_soql;
                 explain_plan := "" |} in
    Returned {| output_rows := output_rows st ++ [r'];
                html_rows := html_rows st;
                log := log st |}.

(** The loop of [process_csv], over the rows [csv.DictReader] yields, each
    with its seven columns: an exception that leaves the body of the loop
    leaves [process_csv], and nothing is written.  Opening and reading the
    input and writing the two reports are not part of the embedding. *)
Fixpoint process_rows (st : state) (rows : list Row) : outcome state :=
  match rows with
  | [] => Returned st
  | r :: rest =>
      match process_row st r with
      | Returned st' => process_rows st' rest
      | Raised e => Raised e
      end
  end.

Definition process_csv (rows : list Row) : outcome state :=
  process_rows {| output_rows := []; html_rows := []; log := [] |} rows.

End Service.





End Explainer.

(* ================================================================= *)
(** ** The properties, as the specification words them *)

Module Stated.

(** Whitespace normalization: split on whitespace, rejoin with one space. *)
Definition normalize (s : str) : str := Py.join " " (Py.split s).

Definition all_space (s : str) : Prop := forallb Py.isspace s = true.
Definition all_word (s : str) : Prop := forallb Py.isword s = true.

(** A bracketed query: [[], whitespace, [SELECT] in any casing, anything,
    []]. *)
Definition BracketedSelect (m : str) : Prop :=
  exists ws kw body,
    m = "[" ++ ws ++ kw ++ body ++ "]"
    /\ all_space ws /\ Py.lower kw = "select".

(** The text contains [w], in any casing. *)
Definition Contains_ci (w content : str) : Prop :=
  exists pre m post, content = pre ++ m ++ post /\ Py.lower m = Py.lower w.

(** The test-class heuristic as claimed: [@isTest] anywhere, or [isTest]
    anywhere between the keyword [class] and the opening of the class
    body, lines being no barrier. *)
Definition TestClassClaimed (content : str) : Prop :=
  Contains_ci "@isTest" content
  \/ exists pre kw decl mark post,
       content = pre ++ kw ++ decl ++ mark ++ post
       /\ Py.lower kw = "class" /\ Py.lower mark = "istest"
       /\ ~ In "{"%char decl.

(** A [WITH] clause as the normalizer removes it: whitespace, [WITH] in
    any casing, whitespace, and a text without []]. *)
Definition WithClause (m : str) : Prop :=
  exists ws1 kw ws2 clause,
    m = ws1 ++ kw ++ ws2 ++ clause
    /\ ws1 <> [] /\ all_space ws1
    /\ Py.lower kw = "with"
    /\ ws2 <> [] /\ all_space ws2
    /\ clause <> [] /\ ~ In "]"%char clause.

Definition HasWithClause (soql : str) : Prop :=
  exists pre m post, soql = pre ++ m ++ post /\ WithClause m.

(** *** Keywords, as the patterns read them

    A pattern compiled with [IGNORECASE] reads a keyword character by
    character.  [Spells kw w] says that the text [w] has the length of
    [kw] and that, at each place, the literal character of [kw] accepts the
    character of [w]: the comparison is the one of the matcher, [Re.same].
    What the patterns find is stated with the keywords read this way. *)
Definition Spells (kw w : str) : Prop := Forall2 (Re.same Extractor.I) kw w.

(** The text contains the keyword. *)
Definition Contains (kw content : str) : Prop :=
  exists pre m post, content = pre ++ m ++ post /\ Spells kw m.

(** A bracketed query: [[], whitespace, the keyword [SELECT], anything,
    []]. *)
Definition SelectQuery (m : str) : Prop :=
  exists ws kw body,
    m = "[" ++ ws ++ kw ++ body ++ "]"
    /\ all_space ws /\ Spells "SELECT" kw.

Definition HasSelectQuery (content : str) : Prop :=
  exists pre m post, content = pre ++ m ++ post /\ SelectQuery m.

(** What the search for a test class finds: the keyword [@isTest]
    anywhere; or the keyword [class], whitespace, a run of word characters,
    whitespace, then on the same line the keyword [isTest]. *)
Definition TestClassFound (content : str) : Prop :=
  Contains "@isTest" content
  \/ exists pre kw ws1 name ws2 gap mark post,
       content = pre ++ kw ++ ws1 ++ name ++ ws2 ++ gap ++ mark ++ post
       /\ Spells "class" kw
       /\ ws1 <> [] /\ all_space ws1
       /\ name <> [] /\ all_word name
       /\ ws2 <> [] /\ all_space ws2
       /\ ~ In "010"%char gap
       /\ Spells "isTest" mark.

(** A [WITH] segment: whitespace, the keyword [WITH], whitespace, and a
    text without []] that is not empty. *)
Definition WithSegment (m : str) : Prop :=
  exists ws1 kw ws2 clause,
    m = ws1 ++ kw ++ ws2 ++ clause
    /\ ws1 <> [] /\ all_space ws1
    /\ Spells "WITH" kw
    /\ ws2 <> [] /\ all_space ws2
    /\ clause <> [] /\ ~ In "]"%char clause.

Definition HasWithSegment (soql : str) : Prop :=
  exists pre m post, soql = pre ++ m ++ post /\ WithSegment m.

(** *** Deciding the heuristic as claimed

    [reads_at w content i]: the text of [content] at offset [i] is [w] up
    to casing.  [claimed content] then looks for what [TestClassClaimed]
    asks, over all the offsets. *)
Definition reads_at (w content : str) (i : nat) : bool :=
  if str_eq_dec (Py.lower (Py.slice i (i + length w) content)) (Py.lower w)
  then true else false.

Definition offsets (content : str) : list nat := seq 0 (S (length content)).

Definition claimed (content : str) : bool :=
  existsb (reads_at "@isTest" content) (offsets content)
  || existsb
       (fun i =>
          existsb
            (fun j =>
               reads_at "class" content i && reads_at "isTest" content j
               && Nat.leb (i + 5) j
               && negb (Py.char_in "{" (Py.slice (i + 5) j content)))
            (offsets content))
       (offsets content).

Definition is_bracket (c : ascii) : bool := Py.char_in c "[]".

(** The first and the last character of [t] are not strippable. *)
Definition Trimmed (p : ascii -> bool) (t : str) : Prop :=
  (forall c, hd_error t = Some c -> p c = false)
  /\ (forall c, hd_error (rev t) = Some c -> p c = false).

(** The casings of [false]. *)
Definition is_false_text (v : str) : Prop :=
  Forall2 (fun c (both : str) => In c both) v
    [("fF" : str); ("aA" : str); ("lL" : str); ("sS" : str); ("eE" : str)].

(** The two shapes of a row of the explainer's report. *)
Definition skipped_record (r : Explainer.Row) : Explainer.ExplainRecord :=
  {| Explainer.row := r;
     Explainer.modified_soql := Explainer.clean_soql (Explainer.soql_query r);
     Explainer.explain_plan := "" |}.

Definition explained_record (r : Explainer.Row) (explain : str)
  : Explainer.ExplainRecord :=
  {| Explainer.row := r;
     Explainer.modified_soql := Explainer.clean_soql (Explainer.soql_query r);
     Explainer.explain_plan := explain |}.

(** A character the [WITH] clause may hold: any but []]. *)
Definition not_close : ascii -> bool := Re.accepts (Re.flag Explainer.with_pattern) (Re.NoneOf "]").

Section Service.

Variable F : Type.
Variable float_repr : F -> str.
Variable access_token : str.
Variable instance_url : str.
Variable requests_get :
  list str -> str -> list (str * str) -> Explainer.outcome (Explainer.Response F).

(** The row is skipped: it is recorded with an empty [explain_plan], no
    request is made, and no table row is added. *)
Definition Skips (st : Explainer.state) (r : Explainer.Row) : Prop :=
  Explainer.process_row F float_repr access_token instance_url requests_get st r
  = Explainer.Returned
      {| Explainer.output_rows := Explainer.output_rows st ++ [skipped_record r];
         Explainer.html_rows := Explainer.html_rows st;
         Explainer.log := Explainer.log st |}.

(** The row is dispatched: one request is made, for the cleaned query, and
    when it returns a response the result is recorded. *)
Definition Dispatches (st : Explainer.state) (r : Explainer.Row) : Prop :=
  let query := Explainer.clean_soql (Explainer.soql_query r) in
  let url := Explainer.explain_url instance_url query in
  fst (Explainer.explain_soql F float_repr access_token instance_url
         requests_get (Explainer.log st) query)
  = Explainer.log st ++ [url]
  /\ forall explain,
       snd (Explainer.explain_soql F float_repr access_token instance_url
              requests_get (Explainer.log st) query)
       = Explainer.Returned explain ->
       Explainer.process_row F float_repr access_token instance_url
         requests_get st r
       = Explainer.Returned
           {| Explainer.output_rows :=
                Explainer.output_rows st ++ [explained_record r explain];
              Explainer.html_rows :=
                Explainer.html_rows st
                ++ [Explainer.html_row (explained_record r explain)];
              Explainer.log := Explainer.log st ++ [url] |}.

End Service.

End Stated.

(* ================================================================= *)
(** ** Inputs for the examples *)

Module Examples.

Import Explainer.

Definition newline : str := ["010"%char].

(** A service for the examples. *)
Definition float_repr0 (z : Z) : str := Py.str_of_int z ++ ".0".

Definition row0 : Row :=
  {| class_name := "A.cls"; start_linenumber := "5"; testClass := "false";
     has_binding := "false"; soql_query := "[SELECT Id FROM Account]";
     sosl_query := ""; dml_operations := "" |}.

Definition row1 : Row :=
  {| class_name := "B.cls"; start_linenumber := "7"; testClass := "TRUE";
     has_binding := "false"; soql_query := "[SELECT Id FROM Contact]";
     sosl_query := ""; dml_operations := "" |}.

Definition unreachable (log : list str) (url : str) (headers : list (str * str))
  : outcome (Response Z) :=
  Raised "ConnectionError".

Definition refusing (log : list str) (url : str) (headers : list (str * str))
  : outcome (Response Z) :=
  Returned {| status_code := 401; text := "Session expired"; json := None |}.

Definition garbled (log : list str) (url : str) (headers : list (str * str))
  : outcome (Response Z) :=
  Returned {| status_code := 200; text := "<html>Maintenance</html>";
              json := None |}.

End Examples.

(* ================================================================= *)
(** ** Further properties: what their statements name *)

Module Described.

(** The DML keywords, as [dml_operations] writes them. *)
Definition dml_keywords : list str :=
  [("insert" : str); ("update" : str); ("delete" : str); ("upsert" : str);
   ("merge" : str)].

(** [w] reads one of the DML keywords, as the pattern compares them. *)
Definition DmlWord (w : str) : Prop :=
  exists kw, In kw dml_keywords /\ Stated.Spells kw w.

(** [w] stands in the text as a whole word that reads a DML keyword: no
    word character right before it and none right after. *)
Definition DmlOccurrence (content w : str) : Prop :=
  exists pre post,
    content = pre ++ w ++ post
    /\ DmlWord w
    /\ Re.is_word (Re.last_of None pre) = false
    /\ Re.is_word (hd_error post) = false.

(** [a <= b] on strings, as [sorted] orders them. *)
Definition str_le (a b : str) : Prop := Py.str_ltb b a = false.

(** A word of a normalized text: not empty, and without whitespace. *)
Definition nonspace (c : ascii) : bool := negb (Py.isspace c).

Definition is_word_of_text (w : str) : Prop :=
  w <> [] /\ forallb nonspace w = true.

(** The span [x] ends before the span [y] starts. *)
Definition before (x y : nat * nat) : Prop := snd x <= fst y.

Section Files.

Variable read_text : str -> option str.

(** The rows of one file of a directory: none for a file that is not a
    [.cls] file. *)
Definition rows_of_file (root filename : str) : list Extractor.QueryRecord :=
  if Py.endswith filename ".cls"
  then
    match read_text (Extractor.path_join root filename) with
    | Some content =>
        Extractor.file_records filename (Extractor.extract_details content)
    | None => []
    end
  else [].

Definition rows_of_walk (walk : list (str * list str))
  : list Extractor.QueryRecord :=
  flat_map (fun d => flat_map (rows_of_file (fst d)) (snd d)) walk.

(** A [.cls] file of the walk that cannot be read. *)
Definition Unreadable (walk : list (str * list str)) : Prop :=
  exists root files filename,
    In (root, files) walk /\ In filename files
    /\ Py.endswith filename ".cls" = true
    /\ read_text (Extractor.path_join root filename) = None.

End Files.

(** The record is the one of a dispatched row. *)
Definition dispatched (rec : Explainer.ExplainRecord) : bool :=
  Explainer.dispatches (Explainer.row rec).

(** The state a run of the explainer over the rows of [Examples] ends in,
    when every request is refused. *)
Definition refused_state : Explainer.state :=
  match
    Explainer.process_csv Z Examples.float_repr0 "token" "https://org"
      Examples.refusing [Examples.row0; Examples.row1]
  with
  | Explainer.Returned st => st
  | Explainer.Raised _ =>
      {| Explainer.output_rows := []; Explainer.html_rows := [];
         Explainer.log := [] |}
  end.

(** A service whose responses are JSON objects without [plans]. *)
Definition without_plans (log : list str) (url : str)
  (headers : list (str * str)) : Explainer.outcome (Explainer.Response Z) :=
  Explainer.Returned
    {| Explainer.status_code := 200; Explainer.text := "{}";
       Explainer.json := Some (Json.Object [("done" : str, Json.Bool true)]) |}.

Section Service.

Variable instance_url : str.

(** The URLs [process_csv] requests for the rows: one for each row that
    is dispatched, in the order of the rows. *)
Definition urls_of_rows (rows : list Explainer.Row) : list str :=
  map
    (fun r =>
       Explainer.explain_url instance_url
         (Explainer.clean_soql (Explainer.soql_query r)))
    (filter Explainer.dispatches rows).

End Service.

End Described.

(* ================================================================= *)
(** ** Deleting the matches, by a direct scan *)

Module Deleting.

(** The text that is left when every match of a pattern that matches no
    empty text is deleted, read off the scan directly: a character is
    kept when no match covers it. *)
Fixpoint kept (p : Re.pattern) (prev : option ascii) (s : str) (skip : nat)
  : str :=
  match s with
  | [] => []
  | c :: s' =>
      match skip with
      | S k => kept p (Some c) s' k
      | 0 =>
          match Re.candidates p prev s with
          | [] => c :: kept p (Some c) s' 0
          | n :: _ => kept p (Some c) s' (pred n)
          end
      end
  end.

End Deleting.

(* ================================================================= *)
(** * Facts *)

(** ** Lists and text *)

Section ListFacts.

Context {A : Type}.

Lemma firstn_plus (n1 n2 : nat) (l : list A) :
  firstn (n1 + n2) l = firstn n1 l ++ firstn n2 (skipn n1 l).
Proof.
  revert l; induction n1 as [|n1 IH]; intros l; simpl.
  - reflexivity.
  - destruct l as [|x l]; simpl.
    + now rewrite firstn_nil.
    + now rewrite IH.
Qed.

Lemma firstn_length_app (l1 l2 : list A) : firstn (length l1) (l1 ++ l2) = l1.
Proof.
  induction l1 as [|x l1 IH]; simpl; [now destruct l2 | now rewrite IH].
Qed.

Lemma skipn_length_app (l1 l2 : list A) : skipn (length l1) (l1 ++ l2) = l2.
Proof.
  induction l1 as [|x l1 IH]; simpl; auto.
Qed.

Lemma firstn_nil_inv (n : nat) (l : list A) :
  n <= length l -> firstn n l = [] -> n = 0.
Proof.
  destruct n, l; simpl; intros; try reflexivity; try lia; discriminate.
Qed.

Lemma firstn_singleton (n : nat) (l : list A) (x : A) :
  firstn n l = [x] -> n <= length l -> n = 1 /\ hd_error l = Some x.
Proof.
  destruct n as [|[|n]], l as [|y [|z l]]; simpl; intros H Hn;
    try discriminate; try lia; injection H as ->; auto.
Qed.

End ListFacts.

Module ReFacts.

Import Re.

Lemma last_of_firstn (prev : option ascii) (s : str) (n : nat) :
  n <= length s -> last_of prev (firstn n s) = prev_at prev s n.
Proof.
  intros Hn. unfold last_of. rewrite firstn_length_le by assumption.
  destruct n as [|k]; [reflexivity|]. unfold prev_at.
  rewrite nth_error_firstn.
  destruct (Nat.ltb_spec k (S k)); [reflexivity | lia].
Qed.

Lemma last_of_app (prev : option ascii) (pre rest : str) :
  prev_at prev (pre ++ rest) (length pre) = last_of prev pre.
Proof.
  rewrite <- (last_of_firstn prev (pre ++ rest)).
  - now rewrite firstn_length_app.
  - rewrite length_app. lia.
Qed.

Lemma run_le_length (p : ascii -> bool) (s : str) : run p s <= length s.
Proof.
  induction s as [|c s IH]; simpl; [lia|]. destruct (p c); simpl; lia.
Qed.

(** [run] is the length of the longest accepted prefix. *)
Lemma run_spec (p : ascii -> bool) (s : str) (n : nat) :
  n <= run p s <-> n <= length s /\ forallb p (firstn n s) = true.
Proof.
  revert n; induction s as [|c s IH]; intros n; simpl.
  - split.
    + intros H. assert (n = 0) by lia. subst. split; [lia | reflexivity].
    + intros [H _]. lia.
  - destruct n as [|n]; simpl.
    + split; [intros _; split; [lia | reflexivity] | intros _; lia].
    + destruct (p c) eqn:Hc; simpl.
      * rewrite <- Nat.succ_le_mono, IH. rewrite <- Nat.succ_le_mono. reflexivity.
      * split; [lia | intros [_ H]; discriminate].
Qed.

(** The matcher lists exactly the prefixes the pattern matches. *)
Theorem ends_spec (fl : flags) (r : regex) :
  forall (prev : option ascii) (s : str) (n : nat),
    In n (ends fl r prev s)
    <-> n <= length s /\ Matches fl r prev (firstn n s) (skipn n s).
Proof.
  induction r as [ | c | | r1 IH1 r2 IH2 | r1 IH1 r2 IH2 | c | c | c | c ];
    intros prev s n; cbn [ends Matches].
  - (* Eps *)
    split.
    + intros [<- | []]. split; [lia | reflexivity].
    + intros [Hn H]. left. symmetry. eapply firstn_nil_inv; eauto.
  - (* Chr *)
    split.
    + destruct s as [|ch s]; simpl; [intros [] |].
      destruct (accepts fl c ch) eqn:Hacc; simpl; [|intros []].
      intros [<- | []]. split; [lia|]. now exists ch.
    + intros [Hn (x & H & Hx)].
      apply firstn_singleton in H as [-> Hs]; [|assumption].
      destruct s as [|ch s]; [discriminate|]. injection Hs as ->.
      rewrite Hx. now left.
  - (* Bound *)
    destruct (is_word prev) eqn:Hp, (is_word (hd_error s)) eqn:Hs; simpl;
      split; try (intros []; fail);
      try (intros [<- | []]; split; [lia | split; [reflexivity | simpl; congruence]]);
      intros [Hn [H Hne]]; apply firstn_nil_inv in H; auto; subst;
      simpl in Hne; try congruence; auto.
  - (* Seq *)
    rewrite in_flat_map. split.
    + intros (n1 & H1 & H2). apply in_map_iff in H2 as (n2 & <- & H2).
      apply IH1 in H1 as [Hn1 M1]. apply IH2 in H2 as [Hn2 M2].
      rewrite length_skipn in Hn2. split; [lia|].
      assert (E : skipn (n1 + n2) s = skipn n2 (skipn n1 s))
        by (rewrite skipn_skipn; f_equal; lia).
      exists (firstn n1 s), (firstn n2 (skipn n1 s)).
      rewrite last_of_firstn by assumption. rewrite E, firstn_skipn.
      split; [apply firstn_plus | split; assumption].
    + intros [Hn (m1 & m2 & Hm & M1 & M2)].
      assert (Hs : s = m1 ++ m2 ++ skipn n s).
      { rewrite app_assoc, <- Hm. symmetry. apply firstn_skipn. }
      assert (Hlen : n = length m1 + length m2).
      { rewrite <- length_app, <- Hm. symmetry. now apply firstn_length_le. }
      exists (length m1). split.
      * apply IH1. split; [lia|].
        rewrite Hs at 1 2. rewrite firstn_length_app, skipn_length_app. exact M1.
      * apply in_map_iff. exists (length m2). split; [lia|].
        apply IH2. rewrite Hs at 1 2 3 4.
        rewrite skipn_length_app, firstn_length_app, skipn_length_app.
        rewrite length_app. split; [lia|].
        rewrite last_of_app. exact M2.
  - (* Alt *)
    rewrite in_app_iff, IH1, IH2. tauto.
  - (* Star *)
    rewrite <- in_rev, in_seq, <- run_spec. lia.
  - (* StarLazy *)
    rewrite in_seq, <- run_spec. lia.
  - (* Plus *)
    rewrite <- in_rev, in_seq. split.
    + intros [H1 H2]. assert (H : n <= run (accepts fl c) s) by lia.
      apply run_spec in H as [Hn Hall]. split; [assumption|]. split; [|assumption].
      intros E. apply firstn_nil_inv in E; lia.
    + intros [Hn [Hne Hall]]. assert (H : n <= run (accepts fl c) s)
        by (apply run_spec; auto).
      destruct n; [now rewrite firstn_O in Hne | lia].
  - (* PlusLazy *)
    rewrite in_seq. split.
    + intros [H1 H2]. assert (H : n <= run (accepts fl c) s) by lia.
      apply run_spec in H as [Hn Hall]. split; [assumption|]. split; [|assumption].
      intros E. apply firstn_nil_inv in E; lia.
    + intros [Hn [Hne Hall]]. assert (H : n <= run (accepts fl c) s)
        by (apply run_spec; auto).
      destruct n; [now rewrite firstn_O in Hne | lia].
Qed.

Corollary matches_iff_ends (fl : flags) (r : regex) (prev : option ascii)
  (m post : str) :
  Matches fl r prev m post <-> In (length m) (ends fl r prev (m ++ post)).
Proof.
  rewrite ends_spec, firstn_length_app, skipn_length_app, length_app.
  split; [intros H; split; [lia | exact H] | now intros [_ H]].
Qed.

Lemma prev_at_cons (prev : option ascii) (c : ascii) (s : str) (k : nat) :
  prev_at prev (c :: s) (S k) = prev_at (Some c) s k.
Proof. now destruct k. Qed.

Lemma match_at_cons (p : pattern) (prev : option ascii) (c : ascii) (s : str)
  (k : nat) :
  match_at p prev (c :: s) (S k) = match_at p (Some c) s k.
Proof. unfold match_at. now rewrite prev_at_cons. Qed.

Lemma search_from_none (p : pattern) (s : str) :
  forall pos prev,
    search_from p pos prev s = None
    <-> forall k, k <= length s -> match_at p prev s k = [].
Proof.
  induction s as [|c s IH]; intros pos prev; simpl.
  - destruct (candidates p prev []) eqn:E.
    + split; [|reflexivity]. intros _ k Hk. assert (k = 0) by lia. now subst.
    + split; [discriminate|]. intros H. specialize (H 0 (le_n _)).
      unfold match_at in H. simpl in H. congruence.
  - destruct (candidates p prev (c :: s)) eqn:E.
    + rewrite IH. split.
      * intros H [|k] Hk; [exact E|]. rewrite match_at_cons. apply H. lia.
      * intros H k Hk. specialize (H (S k)). rewrite match_at_cons in H.
        apply H. lia.
    + split; [discriminate|]. intros H. specialize (H 0 (Nat.le_0_l _)).
      unfold match_at in H. simpl in H. congruence.
Qed.

Lemma search_from_some (p : pattern) (s : str) :
  forall pos prev a b,
    search_from p pos prev s = Some (a, b) ->
    exists k n,
      a = pos + k /\ b = pos + k + n /\ k <= length s
      /\ hd_error (match_at p prev s k) = Some n
      /\ forall j, j < k -> match_at p prev s j = [].
Proof.
  induction s as [|c s IH]; intros pos prev a b; simpl.
  - destruct (candidates p prev []) eqn:E; [discriminate|].
    intros [= <- <-]. exists 0, n. unfold match_at. simpl. rewrite E.
    repeat split; try lia; try reflexivity.
  - destruct (candidates p prev (c :: s)) eqn:E.
    + intros H. apply IH in H as (k & n & -> & -> & Hk & Hhd & Hlt).
      exists (S k), n. rewrite match_at_cons. repeat split; try lia; auto.
      intros [|j] Hj; [exact E|]. rewrite match_at_cons. apply Hlt. lia.
    + intros [= <- <-]. exists 0, n. unfold match_at. simpl. rewrite E.
      repeat split; try lia; try reflexivity.
Qed.

(** An occurrence is a match at some offset. *)
Lemma occurs_iff_match_at (p : pattern) (s : str) :
  Occurs p s <-> exists k n, k <= length s /\ In n (match_at p None s k).
Proof.
  unfold Occurs, match_at, candidates. split.
  - intros (pre & m & post & -> & M). exists (length pre), (length m).
    rewrite last_of_app, skipn_length_app, length_app.
    split; [lia|]. now apply matches_iff_ends.
  - intros (k & n & Hk & H). apply ends_spec in H as [Hn M].
    exists (firstn k s), (firstn n (skipn k s)), (skipn n (skipn k s)).
    rewrite last_of_firstn by assumption.
    now rewrite !firstn_skipn.
Qed.

Theorem search_none_iff (p : pattern) (s : str) :
  search p s = None <-> ~ Occurs p s.
Proof.
  unfold search. rewrite search_from_none, occurs_iff_match_at. split.
  - intros H (k & n & Hk & Hin). rewrite (H k Hk) in Hin. destruct Hin.
  - intros H k Hk. destruct (match_at p None s k) as [|n l] eqn:E; [reflexivity|].
    exfalso. apply H. exists k, n. rewrite E. split; [assumption | now left].
Qed.

Theorem search_some_iff (p : pattern) (s : str) :
  (exists sp, search p s = Some sp) <-> Occurs p s.
Proof.
  split.
  - intros [[a b] H]. apply search_from_some in H as (k & n & _ & _ & Hk & Hhd & _).
    apply occurs_iff_match_at. exists k, n. split; [assumption|].
    destruct (match_at p None s k); simpl in Hhd; [discriminate|].
    injection Hhd as ->. now left.
  - intros H. destruct (search p s) as [sp|] eqn:E; [now exists sp|].
    apply search_none_iff in E. contradiction.
Qed.

Lemma attempts_incl (cands : list nat) (n : nat) :
  In n (attempts cands) -> In n cands.
Proof.
  destruct cands as [|[|c] l]; cbn [attempts].
  - intros [].
  - intros [<- | H]; [now left|].
    destruct (find (Nat.ltb 0) (0 :: l)) eqn:E; [|destruct H].
    destruct H as [<- | []]. now apply find_some in E.
  - intros [<- | []]. now left.
Qed.

Lemma attempts_nil (cands : list nat) : attempts cands = [] -> cands = [].
Proof. destruct cands as [|[|c] l]; simpl; congruence. Qed.

Lemma attempts_first (cands : list nat) (n : nat) :
  ~ In 0 cands -> In n (attempts cands) -> hd_error cands = Some n.
Proof.
  destruct cands as [|[|c] l]; cbn [attempts].
  - intros _ [].
  - intros H. exfalso. apply H. now left.
  - intros _ [<- | []]. reflexivity.
Qed.

(** Every span [finditer] reports is a match the scan tried at its start. *)
Lemma scan_in_attempts (p : pattern) (s : str) :
  forall pos prev skip a b,
    In (a, b) (scan p pos prev s skip) ->
    exists k n,
      a = pos + k /\ b = pos + k + n /\ k <= length s
      /\ In n (attempts (match_at p prev s k)).
Proof.
  induction s as [|c s IH]; intros pos prev skip a b; cbn [scan];
    rewrite in_app_iff, in_map_iff.
  - intros [(n & [= <- <-] & Hn) | []].
    destruct skip; [|destruct Hn].
    exists 0, n. repeat split; try lia; exact Hn.
  - intros [(n & [= <- <-] & Hn) | H].
    + destruct skip; [|destruct Hn].
      exists 0, n. repeat split; try lia; try (simpl; lia); exact Hn.
    + apply IH in H as (k & n & -> & -> & Hk & Hn).
      exists (S k), n. rewrite match_at_cons.
      repeat split; try lia; try (simpl; lia); exact Hn.
Qed.

Lemma scan_in (p : pattern) (s : str) :
  forall pos prev skip a b,
    In (a, b) (scan p pos prev s skip) ->
    exists k n,
      a = pos + k /\ b = pos + k + n /\ k <= length s
      /\ In n (match_at p prev s k).
Proof.
  intros pos prev skip a b H.
  apply scan_in_attempts in H as (k & n & Ha & Hb & Hk & Hn).
  exists k, n. repeat split; try assumption. now apply attempts_incl.
Qed.

Lemma scan_nil (p : pattern) (s : str) :
  forall pos prev,
    scan p pos prev s 0 = [] <-> search_from p pos prev s = None.
Proof.
  induction s as [|c s IH]; intros pos prev; cbn [scan search_from].
  - rewrite app_nil_r. destruct (candidates p prev []) as [|n l] eqn:E.
    + simpl. tauto.
    + split; [|discriminate]. intros H. apply map_eq_nil in H.
      apply attempts_nil in H. discriminate.
  - destruct (candidates p prev (c :: s)) as [|n l] eqn:E.
    + simpl. apply IH.
    + split; [|discriminate]. intros H. apply app_eq_nil in H as [H _].
      apply map_eq_nil in H. apply attempts_nil in H. discriminate.
Qed.

(** [finditer] finds nothing exactly when the pattern does not occur. *)
Theorem finditer_nil_iff (p : pattern) (s : str) :
  finditer p s = [] <-> ~ Occurs p s.
Proof.
  unfold finditer. rewrite scan_nil. apply search_none_iff.
Qed.

(** Every span of [finditer] is an occurrence: the text before it, the
    matched text, the text after it. *)
Theorem finditer_in (p : pattern) (s : str) (a b : nat) :
  In (a, b) (finditer p s) ->
  a <= b /\ b <= length s
  /\ s = firstn a s ++ group0 s (a, b) ++ skipn b s
  /\ Matches (flag p) (expr p) (last_of None (firstn a s))
       (group0 s (a, b)) (skipn b s).
Proof.
  intros H. apply scan_in in H as (k & n & -> & -> & Hk & Hn).
  apply ends_spec in Hn as [Hn M]. rewrite length_skipn in Hn.
  unfold group0, Py.slice. cbn [fst snd plus].
  replace (k + n - k) with n by lia.
  assert (E : skipn (k + n) s = skipn n (skipn k s))
    by (rewrite skipn_skipn; f_equal; lia).
  rewrite E, last_of_firstn by assumption.
  repeat split; try lia; [now rewrite !firstn_skipn | exact M].
Qed.

(** Without a match, [sub] returns the text as it is. *)
Lemma sub_no_match (p : pattern) (repl s : str) :
  ~ Occurs p s -> sub p repl s = s.
Proof.
  intros H. apply finditer_nil_iff in H. unfold sub. now rewrite H.
Qed.

End ReFacts.

(* ----------------------------------------------------------------- *)
(** ** The string functions *)

Module PyFacts.

Import Py Stated.

Ltac each_char c :=
  destruct c as [[] [] [] [] [] [] [] []].

Lemma char_in_iff (c : ascii) (s : str) : char_in c s = true <-> In c s.
Proof.
  unfold char_in. rewrite existsb_exists. split.
  - intros (x & Hx & E). apply Ascii.eqb_eq in E. now subst.
  - intros H. exists c. split; [assumption | apply Ascii.eqb_refl].
Qed.

(** *** [split] and [join] *)

Lemma split_from_concat (c : ascii) (s : str) :
  isspace c = false ->
  forall word,
    In c (concat (split_from word s)) <-> In c word \/ In c s.
Proof.
  intros Hc. induction s as [|c0 s IH]; intros word; cbn [split_from].
  - destruct word; simpl; [tauto|]. rewrite app_nil_r. tauto.
  - destruct (isspace c0) eqn:H0.
    + assert (c0 <> c) by congruence.
      destruct word as [|w word].
      * rewrite IH. simpl. tauto.
      * cbn [concat]. rewrite in_app_iff, IH. simpl. tauto.
    + rewrite IH, in_app_iff. simpl. tauto.
Qed.

Lemma join_concat (c : ascii) (sep : str) (parts : list str) :
  ~ In c sep -> In c (join sep parts) <-> In c (concat parts).
Proof.
  intros Hsep. induction parts as [|p [|q rest] IH].
  - reflexivity.
  - simpl. now rewrite app_nil_r.
  - change (join sep (p :: q :: rest)) with (p ++ sep ++ join sep (q :: rest)).
    change (concat (p :: q :: rest)) with (p ++ concat (q :: rest)).
    rewrite !in_app_iff, IH. tauto.
Qed.

(** Collapsing the whitespace keeps every character that is not
    whitespace, and brings in none. *)
Lemma normalize_in (c : ascii) (s : str) :
  isspace c = false -> In c (join " " (split s)) <-> In c s.
Proof.
  intros Hc. rewrite join_concat.
  - unfold split. rewrite split_from_concat by assumption. simpl. tauto.
  - simpl. intros [<- | []]. discriminate.
Qed.

(** *** [strip] *)

Lemma forallb_rev (p : ascii -> bool) (l : str) :
  forallb p (rev l) = forallb p l.
Proof.
  induction l as [|c l IH]; simpl; [reflexivity|].
  rewrite forallb_app, IH. simpl. destruct (p c), (forallb p l); reflexivity.
Qed.

Lemma lstrip_by_split (p : ascii -> bool) (s : str) :
  exists l, s = l ++ lstrip_by p s /\ forallb p l = true.
Proof.
  induction s as [|c s (l & E & Hl)]; simpl.
  - now exists [].
  - destruct (p c) eqn:Hc.
    + exists (c :: l). simpl. rewrite Hc, Hl. split; [now f_equal | reflexivity].
    + now exists [].
Qed.

Lemma lstrip_by_hd (p : ascii -> bool) (s : str) (c : ascii) :
  hd_error (lstrip_by p s) = Some c -> p c = false.
Proof.
  induction s as [|c0 s IH]; simpl; [discriminate|].
  destruct (p c0) eqn:Hc; [assumption|]. simpl. now intros [= <-].
Qed.


Lemma lstrip_by_stop (p : ascii -> bool) (s : str) :
  (forall c, hd_error s = Some c -> p c = false) -> lstrip_by p s = s.
Proof.
  destruct s as [|c s]; simpl; [reflexivity|].
  intros H. now rewrite (H c eq_refl).
Qed.

Lemma hd_error_app_some (a b : str) (c : ascii) :
  hd_error (a ++ b) = Some c -> a <> [] -> hd_error a = Some c.
Proof. destruct a; simpl; congruence. Qed.

(** What [strip] leaves, and what it takes away. *)
Theorem strip_by_spec (p : ascii -> bool) (s : str) :
  exists l r,
    s = l ++ strip_by p s ++ r
    /\ forallb p l = true /\ forallb p r = true
    /\ Trimmed p (strip_by p s).
Proof.
  unfold strip_by, rstrip_by.
  destruct (lstrip_by_split p s) as (l & El & Hl).
  destruct (lstrip_by_split p (rev (lstrip_by p s))) as (r & Er & Hr).
  exists l, (rev r). split; [|split; [|split]]; try assumption.
  - rewrite El at 1. f_equal. rewrite <- rev_app_distr, <- Er.
    now rewrite rev_involutive.
  - now rewrite forallb_rev.
  - split.
    + intros c Hc.
      assert (E : lstrip_by p s = rev (lstrip_by p (rev (lstrip_by p s))) ++ rev r).
      { rewrite <- rev_app_distr, <- Er. now rewrite rev_involutive. }
      destruct (rev (lstrip_by p (rev (lstrip_by p s)))) as [|x t] eqn:Et;
        [discriminate|].
      injection Hc as ->. apply (lstrip_by_hd p s). now rewrite E.
    + intros c. rewrite rev_involutive. apply lstrip_by_hd.
Qed.


Lemma strip_by_trimmed (p : ascii -> bool) (t : str) :
  Trimmed p t -> strip_by p t = t.
Proof.
  intros [H1 H2]. unfold strip_by, rstrip_by.
  rewrite (lstrip_by_stop p t) by assumption.
  rewrite (lstrip_by_stop p (rev t)) by assumption. apply rev_involutive.
Qed.

End PyFacts.

(* ----------------------------------------------------------------- *)
(** ** What the patterns of the programs match *)

Module PatternFacts.

Import Re ReFacts PyFacts Extractor Stated.

#[local] Arguments lit : simpl never.

Lemma matches_lit (fl : flags) (w : str) (post : str) :
  forall m prev,
    Matches fl (lit w) prev m post <-> Forall2 (same fl) w m.
Proof.
  induction w as [|c [|c' w] IH]; intros m prev.
  - cbn. split; [intros ->; constructor | now inversion 1].
  - cbn. split.
    + intros (ch & -> & H). now repeat constructor.
    + intros H. inversion H as [|? ch ? t Hc Ht]; subst. inversion Ht; subst.
      now exists ch.
  - change (lit (c :: c' :: w)) with (Seq (Chr (Lit c)) (lit (c' :: w))).
    cbn [Matches]. split.
    + intros (m1 & m2 & -> & (ch & -> & H) & M). apply IH in M.
      now constructor.
    + intros H. inversion H as [|? ch ? t Hc Ht]; subst.
      exists [ch], t. split; [reflexivity|]. split; [now exists ch|].
      now apply IH.
Qed.

Lemma same_ignorecase (fl : flags) (w m : str) :
  IGNORECASE fl = true ->
  Forall2 (same fl) w m <-> Py.lower m = Py.lower w.
Proof.
  intros Hfl. revert m. induction w as [|c w IH]; intros m.
  - split; [now inversion 1 | destruct m; [constructor | discriminate]].
  - split.
    + inversion 1 as [|? ch ? t Hc Ht]; subst. apply IH in Ht.
      unfold same, same_char in Hc. rewrite Hfl in Hc.
      apply Ascii.eqb_eq in Hc. simpl. now rewrite Hc, Ht.
    + destruct m as [|ch m]; [discriminate|]. simpl. intros [= Hc Hm].
      constructor; [|now apply IH].
      unfold same, same_char. rewrite Hfl. now apply Ascii.eqb_eq.
Qed.

(** A literal under [IGNORECASE] matches the texts that are equal to it
    up to [lower]. *)
Lemma matches_lit_ignorecase (fl : flags) (w : str) (prev : option ascii)
  (m post : str) :
  IGNORECASE fl = true ->
  Matches fl (lit w) prev m post <-> Py.lower m = Py.lower w.
Proof.
  intros Hfl. now rewrite (matches_lit fl w post), same_ignorecase.
Qed.

(** A literal under [IGNORECASE] matches the texts that spell it. *)
Lemma matches_lit_spells (fl : flags) (w : str) (prev : option ascii)
  (m post : str) :
  IGNORECASE fl = true ->
  Matches fl (lit w) prev m post <-> Spells w m.
Proof.
  intros Hfl. rewrite (matches_lit fl w post). unfold Spells, same, same_char.
  rewrite Hfl. reflexivity.
Qed.

(** On the characters of the embedding, the comparison of the matcher is
    the equality of the lowercase letters. *)
Lemma spells_lower (kw w : str) : Spells kw w <-> Py.lower w = Py.lower kw.
Proof. unfold Spells. now apply same_ignorecase. Qed.

(** The characters without case are matched as themselves. *)
Lemma lower_open_bracket (ch : ascii) :
  Py.lower_char ch = "["%char -> ch = "["%char.
Proof. each_char ch; vm_compute; intros H; try reflexivity; discriminate H. Qed.

Lemma lower_close_bracket (ch : ascii) :
  Py.lower_char ch = "]"%char -> ch = "]"%char.
Proof. each_char ch; vm_compute; intros H; try reflexivity; discriminate H. Qed.

Lemma forallb_true (s : str) : forallb (fun _ => true) s = true.
Proof. induction s; simpl; auto. Qed.

End PatternFacts.

(* ----------------------------------------------------------------- *)
(** ** The extractor *)

Module ExtractorFacts.

Import Re ReFacts PyFacts PatternFacts Extractor Stated.

#[local] Arguments lit : simpl never.

Lemma soql_matches (prev : option ascii) (m post : str) :
  Matches (flag soql_pattern) (expr soql_pattern) prev m post
  <-> BracketedSelect m.
Proof.
  unfold BracketedSelect, all_space. cbn [soql_pattern flag expr Matches]. split.
  - intros (m1 & m2 & -> & (c1 & -> & H1) & m3 & m4 & -> & Hws
            & m5 & m6 & -> & Hkw & m7 & m8 & -> & _ & (c2 & -> & H2)).
    apply matches_lit_ignorecase in Hkw; [|reflexivity].
    apply Ascii.eqb_eq, lower_open_bracket in H1.
    apply Ascii.eqb_eq, lower_close_bracket in H2. subst.
    now exists m3, m5, m7.
  - intros (ws & kw & body & -> & Hws & Hkw).
    exists ["["%char], (ws ++ kw ++ body ++ "]"). split; [reflexivity|].
    split; [now exists "["%char|].
    exists ws, (kw ++ body ++ "]"). split; [reflexivity|]. split; [exact Hws|].
    exists kw, (body ++ "]"). split; [reflexivity|].
    split; [now apply matches_lit_ignorecase|].
    exists body, ["]"%char]. split; [reflexivity|].
    split; [apply forallb_true | now exists "]"%char].
Qed.

Lemma soql_matches_query (prev : option ascii) (m post : str) :
  Matches (flag soql_pattern) (expr soql_pattern) prev m post
  <-> SelectQuery m.
Proof.
  unfold SelectQuery, all_space. cbn [soql_pattern flag expr Matches]. split.
  - intros (m1 & m2 & -> & (c1 & -> & H1) & m3 & m4 & -> & Hws
            & m5 & m6 & -> & Hkw & m7 & m8 & -> & _ & (c2 & -> & H2)).
    apply matches_lit_spells in Hkw; [|reflexivity].
    apply Ascii.eqb_eq, lower_open_bracket in H1.
    apply Ascii.eqb_eq, lower_close_bracket in H2. subst.
    now exists m3, m5, m7.
  - intros (ws & kw & body & -> & Hws & Hkw).
    exists ["["%char], (ws ++ kw ++ body ++ "]"). split; [reflexivity|].
    split; [now exists "["%char|].
    exists ws, (kw ++ body ++ "]"). split; [reflexivity|]. split; [exact Hws|].
    exists kw, (body ++ "]"). split; [reflexivity|].
    split; [now apply matches_lit_spells|].
    exists body, ["]"%char]. split; [reflexivity|].
    split; [apply forallb_true | now exists "]"%char].
Qed.

Lemma soql_occurs_query (content : str) :
  Occurs soql_pattern content <-> HasSelectQuery content.
Proof.
  unfold Occurs, HasSelectQuery. split.
  - intros (pre & m & post & E & M). apply soql_matches_query in M. eauto.
  - intros (pre & m & post & E & M). exists pre, m, post.
    split; [assumption | now apply soql_matches_query].
Qed.

Lemma no_newline_iff (gap : str) :
  forallb (accepts I Dot) gap = true <-> ~ In "010"%char gap.
Proof.
  induction gap as [|c gap IH]; simpl.
  - split; [intros _ [] | reflexivity].
  - rewrite andb_true_iff, IH, negb_true_iff, Ascii.eqb_neq. split.
    + intros [H1 H2] [E | H]; [now apply H1 | now apply H2].
    + intros H. split; [intros E | intros H']; apply H; auto.
Qed.

Lemma test_class_matches_found (prev : option ascii) (m post : str) :
  Matches (flag test_class_pattern) (expr test_class_pattern) prev m post
  <-> Spells "@isTest" m
      \/ exists kw ws1 name ws2 gap mark,
           m = kw ++ ws1 ++ name ++ ws2 ++ gap ++ mark
           /\ Spells "class" kw
           /\ ws1 <> [] /\ all_space ws1
           /\ name <> [] /\ all_word name
           /\ ws2 <> [] /\ all_space ws2
           /\ ~ In "010"%char gap
           /\ Spells "isTest" mark.
Proof.
  unfold all_space, all_word.
  cbn [test_class_pattern flag expr Matches]. split.
  - intros [M | (kw & m1 & -> & Hkw & ws1 & m2 & -> & [N1 H1]
                 & name & m3 & -> & [N2 H2] & ws2 & m4 & -> & [N3 H3]
                 & gap & mark & -> & Hgap & Hmark)].
    + left. now apply matches_lit_spells in M.
    + right. apply matches_lit_spells in Hkw; [|reflexivity].
      apply matches_lit_spells in Hmark; [|reflexivity].
      apply no_newline_iff in Hgap.
      exists kw, ws1, name, ws2, gap, mark. repeat split; assumption.
  - intros [M | (kw & ws1 & name & ws2 & gap & mark & -> & Hkw & N1 & H1
                 & N2 & H2 & N3 & H3 & Hgap & Hmark)].
    + left. now apply matches_lit_spells.
    + right.
      exists kw, (ws1 ++ name ++ ws2 ++ gap ++ mark). split; [reflexivity|].
      split; [now apply matches_lit_spells|].
      exists ws1, (name ++ ws2 ++ gap ++ mark). split; [reflexivity|].
      split; [now split|].
      exists name, (ws2 ++ gap ++ mark). split; [reflexivity|].
      split; [now split|].
      exists ws2, (gap ++ mark). split; [reflexivity|]. split; [now split|].
      exists gap, mark. split; [reflexivity|].
      split; [now apply no_newline_iff | now apply matches_lit_spells].
Qed.

Lemma test_class_occurs_found (content : str) :
  Occurs test_class_pattern content <-> TestClassFound content.
Proof.
  unfold Occurs, TestClassFound, Contains. split.
  - intros (pre & m & post & -> & M). apply test_class_matches_found in M.
    destruct M as [M | (kw & ws1 & name & ws2 & gap & mark & -> & H)].
    + left. now exists pre, m, post.
    + right. exists pre, kw, ws1, name, ws2, gap, mark, post.
      split; [|exact H]. now rewrite <- !app_assoc.
  - intros [(pre & m & post & -> & M)
           | (pre & kw & ws1 & name & ws2 & gap & mark & post & -> & H)].
    + exists pre, m, post. split; [reflexivity|].
      apply test_class_matches_found. now left.
    + exists pre, (kw ++ ws1 ++ name ++ ws2 ++ gap ++ mark), post.
      split; [now rewrite <- !app_assoc|].
      apply test_class_matches_found. right.
      now exists kw, ws1, name, ws2, gap, mark.
Qed.

Lemma is_test_found (content : str) :
  is_test content = true <-> TestClassFound content.
Proof.
  rewrite <- test_class_occurs_found, <- search_some_iff. unfold is_test.
  destruct (search test_class_pattern content) as [sp|].
  - split; [now exists sp | reflexivity].
  - split; [discriminate | now intros [sp H]].
Qed.

(** *** The heuristic as claimed, decided *)

Lemma lower_length (s : str) : length (Py.lower s) = length s.
Proof. apply length_map. Qed.

Lemma reads_at_occurrence (w pre m post : str) :
  Py.lower m = Py.lower w ->
  reads_at w (pre ++ m ++ post) (length pre) = true.
Proof.
  intros E. unfold reads_at, Py.slice.
  assert (L : length m = length w)
    by (rewrite <- (lower_length m), E; apply lower_length).
  replace (length pre + length w - length pre) with (length m) by lia.
  rewrite skipn_length_app, firstn_length_app.
  destruct (str_eq_dec (Py.lower m) (Py.lower w)); [reflexivity | contradiction].
Qed.

Lemma offsets_in (pre rest : str) : In (length pre) (offsets (pre ++ rest)).
Proof. unfold offsets. apply in_seq. rewrite length_app. lia. Qed.

Lemma claimed_complete (content : str) :
  TestClassClaimed content -> claimed content = true.
Proof.
  unfold claimed.
  intros [(pre & m & post & -> & E)
         | (pre & kw & decl & mark & post & Ec & K & M & D)];
    apply orb_true_iff; [left | right]; apply existsb_exists.
  - exists (length pre). split; [apply offsets_in|].
    now apply reads_at_occurrence.
  - assert (E1 : content = (pre ++ kw ++ decl) ++ mark ++ post)
      by (now rewrite Ec, <- !app_assoc).
    assert (E2 : content = (pre ++ kw) ++ decl ++ mark ++ post)
      by (now rewrite Ec, <- !app_assoc).
    assert (Lk : length kw = 5)
      by (rewrite <- (lower_length kw), K; reflexivity).
    exists (length pre). split; [rewrite Ec; apply offsets_in|].
    apply existsb_exists. exists (length (pre ++ kw ++ decl)).
    split; [rewrite E1; apply offsets_in|].
    rewrite !andb_true_iff. repeat split.
    + rewrite Ec. apply reads_at_occurrence. exact K.
    + rewrite E1. apply reads_at_occurrence. exact M.
    + apply Nat.leb_le. rewrite !length_app. lia.
    + apply negb_true_iff. unfold Py.slice.
      replace (length pre + 5) with (length (pre ++ kw))
        by (rewrite length_app; lia).
      replace (length (pre ++ kw ++ decl) - length (pre ++ kw))
        with (length decl) by (rewrite !length_app; lia).
      rewrite E2, skipn_length_app, firstn_length_app.
      destruct (Py.char_in "{" decl) eqn:C; [|reflexivity].
      apply char_in_iff in C. contradiction.
Qed.

End ExtractorFacts.

(* ================================================================= *)
(** * The claims on the extractor *)

Module ExtractorClaims.

Import Re ReFacts PyFacts PatternFacts Extractor Stated ExtractorFacts
  Examples.

(** Every row of a file comes from one span of [finditer]. *)
Lemma file_records_in (filename content : str) (r : QueryRecord) :
  In r (file_records filename (extract_details content)) ->
  exists a b,
    In (a, b) (finditer soql_pattern content)
    /\ r = {| class_name := filename;
              start_linenumber := Py.count "010" (firstn a content) + 1;
              testClass := Py.lower (Py.str_of_bool (is_test content));
              has_binding :=
                Py.lower (Py.str_of_bool
                  (Py.char_in ":" (normalize (group0 content (a, b)))));
              soql_query := normalize (group0 content (a, b));
              sosl_query := sosl_combined content;
              dml_operations := dml_ops_cleaned content |}.
Proof.
  unfold file_records, extract_details, soql_results. rewrite map_map.
  intros H. apply in_map_iff in H as ([a b] & <- & Hin).
  exists a, b. split; [assumption|].
  unfold Py.slice. cbn [fst skipn]. now rewrite Nat.sub_0_r.
Qed.

(** C1.  The extractor's [dml_operations] on a text with the occurrences
    [Insert], [INSERT] and [delete]: the set is built from the matched
    texts as they are cased, and lowered afterwards, so [insert] comes
    twice. *)
Theorem dml_operations_mixed_case :
  map dml_operations
    (file_records "A.cls"
       (extract_details
          "Insert a; INSERT b; delete c; x = [SELECT Id FROM A];"))
  = [list_ascii_of_string "delete, insert, insert"].
Proof. vm_compute. reflexivity. Qed.



(** C6.  A file whose text holds no bracketed [SELECT], as the pattern
    reads it, gives no row, whatever else it holds: processing it leaves
    [records] as it was. *)
Theorem no_select_no_records (filename content : str) :
  ~ HasSelectQuery content ->
  file_records filename (extract_details content) = []
  /\ forall (read_text : str -> option str) (root : str) (rest : list str)
       (records : list QueryRecord),
       read_text (path_join root filename) = Some content ->
       process_files read_text root (filename :: rest) records
       = process_files read_text root rest records.
Proof.
  intros H. rewrite <- soql_occurs_query, <- finditer_nil_iff in H.
  assert (E : file_records filename (extract_details content) = []).
  { unfold file_records, extract_details, soql_results. now rewrite H. }
  split; [exact E|]. intros read_text root rest records Hread.
  cbn [process_files]. unfold extract_details_from_file. rewrite Hread, E.
  rewrite app_nil_r. now destruct (Py.endswith filename ".cls").
Qed.

Lemma no_select_no_records_witness :
  file_records "A.cls"
    (extract_details
       "insert a; x = [FIND 'a' IN ALL FIELDS RETURNING Account];") = []
  /\ forall (read_text : str -> option str) (root : str) (rest : list str)
       (records : list QueryRecord),
       read_text (path_join root "A.cls")
       = Some (list_ascii_of_string
                 "insert a; x = [FIND 'a' IN ALL FIELDS RETURNING Account];") ->
       process_files read_text root (("A.cls" : str) :: rest) records
       = process_files read_text root rest records.
Proof.
  apply (no_select_no_records "A.cls"
           "insert a; x = [FIND 'a' IN ALL FIELDS RETURNING Account];").
  rewrite <- soql_occurs_query, <- finditer_nil_iff. vm_compute. reflexivity.
Defined.

(** C7.  [has_binding] is ["true"] exactly when the matched text holds a
    colon, and ["false"] otherwise; the matched text and its normalized
    form hold the same colons. *)
Theorem has_binding_iff_colon (filename content : str) (r : QueryRecord) :
  In r (file_records filename (extract_details content)) ->
  exists a b,
    In (a, b) (finditer soql_pattern content)
    /\ soql_query r = normalize (group0 content (a, b))
    /\ (has_binding r = "true" <-> In ":"%char (group0 content (a, b)))
    /\ (has_binding r = "false" <-> ~ In ":"%char (group0 content (a, b)))
    /\ (In ":"%char (group0 content (a, b)) <-> In ":"%char (soql_query r)).
Proof.
  intros H. apply file_records_in in H as (a & b & Hin & ->).
  exists a, b. cbn [soql_query has_binding].
  assert (N : In ":"%char (normalize (group0 content (a, b)))
              <-> In ":"%char (group0 content (a, b)))
    by (apply normalize_in; reflexivity).
  split; [assumption|]. split; [reflexivity|].
  destruct (Py.char_in ":" (normalize (group0 content (a, b)))) eqn:E.
  - apply char_in_iff in E. apply N in E.
    repeat split; intros; try tauto; try discriminate; try reflexivity.
  - assert (~ In ":"%char (group0 content (a, b))).
    { intros Hc. apply N, char_in_iff in Hc. congruence. }
    repeat split; intros; try tauto; try discriminate; try reflexivity.
Qed.

Lemma has_binding_iff_colon_witness :
  exists a b,
    In (a, b) (finditer soql_pattern "[SELECT Id FROM B WHERE Id = :x]")
    /\ ("[SELECT Id FROM B WHERE Id = :x]" : str)
       = normalize (group0 "[SELECT Id FROM B WHERE Id = :x]" (a, b))
    /\ (("true" : str) = "true"
        <-> In ":"%char (group0 "[SELECT Id FROM B WHERE Id = :x]" (a, b)))
    /\ (("true" : str) = "false"
        <-> ~ In ":"%char (group0 "[SELECT Id FROM B WHERE Id = :x]" (a, b)))
    /\ (In ":"%char (group0 "[SELECT Id FROM B WHERE Id = :x]" (a, b))
        <-> In ":"%char (list_ascii_of_string "[SELECT Id FROM B WHERE Id = :x]")).
Proof.
  apply (has_binding_iff_colon "A.cls" "[SELECT Id FROM B WHERE Id = :x]"
           {| class_name := "A.cls"; start_linenumber := 1;
              testClass := "false"; has_binding := "true";
              soql_query := "[SELECT Id FROM B WHERE Id = :x]";
              sosl_query := ""; dml_operations := "" |}).
  vm_compute. left. reflexivity.
Defined.

(** C9.  Every row of a file carries the two aggregates of the file: the
    SOSL matches of the whole text, normalized and joined with [" | "],
    and the DML keywords of the whole text; so any two rows of the file
    agree on both. *)
Theorem aggregates_shared (filename content : str) (r1 r2 : QueryRecord) :
  In r1 (file_records filename (extract_details content)) ->
  In r2 (file_records filename (extract_details content)) ->
  sosl_query r1
  = Py.join " | " (map normalize (findall sosl_pattern content))
  /\ dml_operations r1 = dml_ops_cleaned content
  /\ sosl_query r1 = sosl_query r2
  /\ dml_operations r1 = dml_operations r2.
Proof.
  intros H1 H2.
  apply file_records_in in H1 as (a1 & b1 & _ & ->).
  apply file_records_in in H2 as (a2 & b2 & _ & ->).
  repeat split.
Qed.

Lemma aggregates_shared_witness :
  (list_ascii_of_string "FIND 'a' IN ALL FIELDS RETURNING B;")
  = Py.join " | "
      (map normalize
         (findall sosl_pattern
            ("x = [SELECT Id FROM B]; FIND 'a'  IN ALL FIELDS RETURNING B; "
             ++ "update x; y = [select Id from C];")))
  /\ (list_ascii_of_string "update")
     = dml_ops_cleaned
         ("x = [SELECT Id FROM B]; FIND 'a'  IN ALL FIELDS RETURNING B; "
          ++ "update x; y = [select Id from C];")
  /\ (list_ascii_of_string "FIND 'a' IN ALL FIELDS RETURNING B;")
     = (list_ascii_of_string "FIND 'a' IN ALL FIELDS RETURNING B;")
  /\ (list_ascii_of_string "update") = (list_ascii_of_string "update").
Proof.
  apply (aggregates_shared "A.cls"
           ("x = [SELECT Id FROM B]; FIND 'a'  IN ALL FIELDS RETURNING B; "
            ++ "update x; y = [select Id from C];")
           {| class_name := "A.cls"; start_linenumber := 1;
              testClass := "false"; has_binding := "false";
              soql_query := "[SELECT Id FROM B]";
              sosl_query := "FIND 'a' IN ALL FIELDS RETURNING B;";
              dml_operations := "update" |}
           {| class_name := "A.cls"; start_linenumber := 1;
              testClass := "false"; has_binding := "false";
              soql_query := "[select Id from C]";
              sosl_query := "FIND 'a' IN ALL FIELDS RETURNING B;";
              dml_operations := "update" |}).
  - vm_compute. left. reflexivity.
  - vm_compute. right. left. reflexivity.
Defined.

(** C8, as stated, fails twice.  A class declaration whose [isTest] stands
    on the line after the one of [class] is claimed to be detected, and
    the search does not find it; and a class whose [isTest] comes only
    after the opening of the class body is claimed not to be detected,
    and the search finds it. *)
Lemma test_class_detection_counterexample :
  ~ (is_test ("class Foo extends Bar" ++ newline ++ "isTest {") = true
     <-> TestClassClaimed ("class Foo extends Bar" ++ newline ++ "isTest {"))
  /\ ~ (is_test "class Foo { Boolean isTest; }" = true
        <-> TestClassClaimed "class Foo { Boolean isTest; }").
Proof.
  split.
  - intros [_ H].
    assert (C : TestClassClaimed
                  ("class Foo extends Bar" ++ newline ++ "isTest {")).
    { right.
      exists [], (list_ascii_of_string "class"),
        (" Foo extends Bar" ++ newline), (list_ascii_of_string "isTest"),
        (list_ascii_of_string " {").
      split; [reflexivity|]. split; [reflexivity|]. split; [reflexivity|].
      vm_compute. intros D.
      repeat (destruct D as [D | D]; [discriminate D|]). exact D. }
    apply H in C. vm_compute in C. discriminate C.
  - intros [H _].
    assert (T : is_test "class Foo { Boolean isTest; }" = true)
      by (vm_compute; reflexivity).
    apply H, claimed_complete in T. vm_compute in T. discriminate T.
Qed.

(** C8, amended.  [is_test] holds exactly when the text contains the
    keyword [@isTest], or contains the keyword [class], whitespace, a run
    of word characters, whitespace, then any characters but a newline,
    then the keyword [isTest]; the keywords are read as the pattern reads
    them, in any casing.  The search is over the whole text, and the
    whitespace around the name may hold newlines; the part between that
    whitespace and [isTest] may not, and it may hold the opening of the
    class body. *)
Theorem test_class_detection (content : str) :
  is_test content = true <-> TestClassFound content.
Proof. apply is_test_found. Qed.

End ExtractorClaims.

(* ----------------------------------------------------------------- *)
(** ** The normalizer *)

Module NormalizerFacts.

Import Re ReFacts PyFacts PatternFacts Explainer Stated.

#[local] Arguments lit : simpl never.

Lemma not_close_false (c : ascii) : not_close c = false -> c = "]"%char.
Proof.
  unfold not_close. cbn. rewrite orb_false_r, negb_false_iff.
  intros H. now apply Ascii.eqb_eq, lower_close_bracket in H.
Qed.

Lemma not_close_all (clause : str) :
  forallb not_close clause = true <-> ~ In "]"%char clause.
Proof.
  induction clause as [|c clause IH]; simpl.
  - split; [intros _ [] | reflexivity].
  - rewrite andb_true_iff, IH. split.
    + intros [H1 H2] [E | H]; [|now apply H2]. subst c. discriminate H1.
    + intros H. split; [|intros H'; apply H; now right].
      destruct (not_close c) eqn:E; [reflexivity|].
      apply not_close_false in E. exfalso. apply H. now left.
Qed.

Lemma with_matches (prev : option ascii) (m post : str) :
  Matches (flag with_pattern) (expr with_pattern) prev m post <-> WithClause m.
Proof.
  unfold WithClause, all_space. cbn [with_pattern flag expr Matches]. split.
  - intros (ws1 & m1 & -> & [N1 H1] & kw & m2 & -> & Hkw
            & ws2 & clause & -> & [N2 H2] & [N3 H3]).
    apply matches_lit_ignorecase in Hkw; [|reflexivity].
    apply not_close_all in H3.
    exists ws1, kw, ws2, clause. repeat split; assumption.
  - intros (ws1 & kw & ws2 & clause & -> & N1 & H1 & Hkw & N2 & H2 & N3 & H3).
    exists ws1, (kw ++ ws2 ++ clause). split; [reflexivity|].
    split; [now split|].
    exists kw, (ws2 ++ clause). split; [reflexivity|].
    split; [now apply matches_lit_ignorecase|].
    exists ws2, clause. split; [reflexivity|]. split; [now split|].
    split; [assumption | now apply not_close_all].
Qed.


Lemma with_matches_segment (prev : option ascii) (m post : str) :
  Matches (flag with_pattern) (expr with_pattern) prev m post <-> WithSegment m.
Proof.
  unfold WithSegment, all_space. cbn [with_pattern flag expr Matches]. split.
  - intros (ws1 & m1 & -> & [N1 H1] & kw & m2 & -> & Hkw
            & ws2 & clause & -> & [N2 H2] & [N3 H3]).
    apply matches_lit_spells in Hkw; [|reflexivity].
    apply not_close_all in H3.
    exists ws1, kw, ws2, clause. repeat split; assumption.
  - intros (ws1 & kw & ws2 & clause & -> & N1 & H1 & Hkw & N2 & H2 & N3 & H3).
    exists ws1, (kw ++ ws2 ++ clause). split; [reflexivity|].
    split; [now split|].
    exists kw, (ws2 ++ clause). split; [reflexivity|].
    split; [now apply matches_lit_spells|].
    exists ws2, clause. split; [reflexivity|]. split; [now split|].
    split; [assumption | now apply not_close_all].
Qed.

Lemma with_occurs_segment (soql : str) :
  Occurs with_pattern soql <-> HasWithSegment soql.
Proof.
  unfold Occurs, HasWithSegment. split.
  - intros (pre & m & post & E & M). apply with_matches_segment in M. eauto.
  - intros (pre & m & post & E & M). exists pre, m, post.
    split; [assumption | now apply with_matches_segment].
Qed.

(** *** The first candidate: the clause runs to the next []] or to the end *)

Lemma hd_flat_map {A B : Type} (f : A -> list B) (l : list A) (x : B) :
  hd_error (flat_map f l) = Some x ->
  exists y, In y l /\ hd_error (f y) = Some x.
Proof.
  induction l as [|a l IH]; simpl; [discriminate|].
  destruct (f a) as [|b t] eqn:E; simpl.
  - intros H. destruct (IH H) as (y & Hy & Hx). exists y. auto.
  - intros [= ->]. exists a. rewrite E. auto.
Qed.

Lemma hd_map_add (n1 : nat) (l : list nat) (n : nat) :
  hd_error (map (Nat.add n1) l) = Some n ->
  exists n2, n = n1 + n2 /\ hd_error l = Some n2.
Proof. destruct l as [|x l]; simpl; [discriminate|]. intros [= <-]. eauto. Qed.

Lemma hd_rev_seq (k n : nat) :
  hd_error (rev (seq 1 k)) = Some n -> n = k /\ 1 <= k.
Proof.
  destruct k as [|k]; [discriminate|].
  rewrite seq_S, rev_app_distr. simpl. intros [= <-]. lia.
Qed.

(** Where a run stops: at the end, or before a refused character. *)
Lemma run_stop (p : ascii -> bool) (s : str) :
  skipn (run p s) s = []
  \/ exists c, hd_error (skipn (run p s) s) = Some c /\ p c = false.
Proof.
  induction s as [|c s IH]; simpl; [now left|].
  destruct (p c) eqn:E; simpl; [exact IH|]. right. now exists c.
Qed.

Lemma with_first_end (prev : option ascii) (s : str) (n : nat) :
  hd_error (candidates with_pattern prev s) = Some n ->
  skipn n s = [] \/ hd_error (skipn n s) = Some "]"%char.
Proof.
  unfold candidates. cbn [with_pattern flag expr ends].
  intros H. apply hd_flat_map in H as (n1 & _ & H).
  apply hd_map_add in H as (m1 & -> & H).
  apply hd_flat_map in H as (n2 & _ & H).
  apply hd_map_add in H as (m2 & -> & H).
  apply hd_flat_map in H as (n3 & _ & H).
  apply hd_map_add in H as (m3 & -> & H).
  apply hd_rev_seq in H as [-> _].
  change (accepts {| IGNORECASE := true; DOTALL := false |} (NoneOf "]"))
    with not_close.
  set (rest := skipn n3 (skipn n2 (skipn n1 s))).
  assert (E : skipn (n1 + (n2 + (n3 + run not_close rest))) s
              = skipn (run not_close rest) rest).
  { unfold rest. rewrite !skipn_skipn. f_equal. lia. }
  rewrite E. destruct (run_stop not_close rest) as [E' | (c & E' & Hc)];
    [now left|].
  right. apply not_close_false in Hc. now subst c.
Qed.

Lemma with_not_empty (prev : option ascii) (s : str) :
  ~ In 0 (candidates with_pattern prev s).
Proof.
  intros H. apply ends_spec in H as [_ M]. apply with_matches in M.
  destruct M as (ws1 & kw & ws2 & clause & E & N1 & _).
  destruct ws1; [now apply N1 | discriminate].
Qed.

End NormalizerFacts.

(* ----------------------------------------------------------------- *)
(** ** The explainer *)

Module ExplainerFacts.

Import Re ReFacts PyFacts PatternFacts NormalizerFacts Explainer Stated.

Lemma str_of_int_nonempty (z : Z) : Py.str_of_int z <> [].
Proof.
  unfold Py.str_of_int.
  destruct (Z.to_int z) as [d | d]; [destruct d|]; discriminate.
Qed.

Lemma quote_nonempty (s : str) : Json.quote s <> [].
Proof. discriminate. Qed.

Lemma dumps_nonempty (F : Type) (float_repr : F -> str) :
  (forall f, float_repr f <> []) ->
  forall v, Json.dumps F float_repr v <> [].
Proof.
  intros Hf v. unfold Json.dumps.
  destruct v as [ | [] | z | f | s | [|x items] | [|x members] ];
    cbn [Json.dumps_at]; try discriminate.
  - apply str_of_int_nonempty.
  - apply Hf.
Qed.

(** The casings of one letter. *)
Ltac letter_cases c :=
  each_char c; vm_compute; split; intros H;
  try discriminate H; try tauto;
  destruct H as [H | [H | []]]; discriminate H.

Lemma lower_f (c : ascii) :
  Py.lower_char c = "f"%char <-> In c (list_ascii_of_string "fF").
Proof. letter_cases c. Qed.

Lemma lower_a (c : ascii) :
  Py.lower_char c = "a"%char <-> In c (list_ascii_of_string "aA").
Proof. letter_cases c. Qed.

Lemma lower_l (c : ascii) :
  Py.lower_char c = "l"%char <-> In c (list_ascii_of_string "lL").
Proof. letter_cases c. Qed.

Lemma lower_s (c : ascii) :
  Py.lower_char c = "s"%char <-> In c (list_ascii_of_string "sS").
Proof. letter_cases c. Qed.

Lemma lower_e (c : ascii) :
  Py.lower_char c = "e"%char <-> In c (list_ascii_of_string "eE").
Proof. letter_cases c. Qed.

Lemma lower_false_iff (v : str) : Py.lower v = "false" <-> is_false_text v.
Proof.
  unfold is_false_text. split.
  - destruct v as [|c1 [|c2 [|c3 [|c4 [|c5 [|c6 v]]]]]]; try discriminate.
    cbn. intros [= H1 H2 H3 H4 H5].
    constructor; [now apply lower_f|]. constructor; [now apply lower_a|].
    constructor; [now apply lower_l|]. constructor; [now apply lower_s|].
    constructor; [now apply lower_e|]. constructor.
  - intros H.
    inversion H as [|c1 ? v1 ? H1 T1]; subst; clear H.
    inversion T1 as [|c2 ? v2 ? H2 T2]; subst; clear T1.
    inversion T2 as [|c3 ? v3 ? H3 T3]; subst; clear T2.
    inversion T3 as [|c4 ? v4 ? H4 T4]; subst; clear T3.
    inversion T4 as [|c5 ? v5 ? H5 T5]; subst; clear T4.
    inversion T5; subst; clear T5.
    apply lower_f in H1. apply lower_a in H2. apply lower_l in H3.
    apply lower_s in H4. apply lower_e in H5.
    cbn. now rewrite H1, H2, H3, H4, H5.
Qed.

Lemma dispatches_iff (r : Row) :
  dispatches r = true
  <-> Py.lower (testClass r) = "false" /\ Py.lower (has_binding r) = "false".
Proof.
  unfold dispatches.
  destruct (str_eq_dec (Py.lower (testClass r)) "false"),
    (str_eq_dec (Py.lower (has_binding r)) "false"); simpl;
    split; try tauto; try discriminate.
Qed.

Section Service.

Variable F : Type.
Variable float_repr : F -> str.
Variable access_token : str.
Variable instance_url : str.
Variable requests_get :
  list str -> str -> list (str * str) -> outcome (Response F).

#[local] Abbreviation explain := (explain_soql F float_repr access_token instance_url requests_get).
#[local] Abbreviation step := (process_row F float_repr access_token instance_url requests_get).
#[local] Abbreviation steps := (process_rows F float_repr access_token instance_url requests_get).

Lemma explain_soql_log (log : list str) (query : str) :
  fst (explain log query) = log ++ [explain_url instance_url query].
Proof.
  unfold explain_soql.
  now destruct (requests_get log (explain_url instance_url query)
                  (explain_headers access_token)).
Qed.

Lemma explain_soql_returned (log : list str) (query : str)
  (response : Response F) :
  requests_get log (explain_url instance_url query)
    (explain_headers access_token) = Returned response ->
  (forall f, float_repr f <> []) ->
  exists result,
    snd (explain log query) = Returned result /\ result <> [].
Proof.
  intros H Hf. unfold explain_soql. rewrite H. cbn [snd].
  eexists. split; [reflexivity|].
  destruct (status_code F response =? 200)%Z.
  - destruct (json F response) as [[ | | | | | | plan]|]; try discriminate.
    now apply dumps_nonempty.
  - discriminate.
Qed.

Lemma skip_when_not_dispatched (st : state) (r : Row) :
  dispatches r = false ->
  Skips F float_repr access_token instance_url requests_get st r.
Proof. intros H. unfold Skips, process_row. now rewrite H. Qed.

Lemma dispatch_when_dispatched (st : state) (r : Row) :
  dispatches r = true ->
  Dispatches F float_repr access_token instance_url requests_get st r.
Proof.
  intros H. unfold Dispatches. split; [apply explain_soql_log|].
  intros result E. unfold process_row. rewrite H.
  pose proof (explain_soql_log (log st) (clean_soql (soql_query r))) as L.
  destruct (explain (log st) (clean_soql (soql_query r))) as [log' res].
  cbn [fst snd] in *. subst. reflexivity.
Qed.

Lemma no_skip_when_dispatched (st : state) (r : Row) :
  dispatches r = true ->
  ~ Skips F float_repr access_token instance_url requests_get st r.
Proof.
  intros H. unfold Skips, process_row. rewrite H.
  pose proof (explain_soql_log (log st) (clean_soql (soql_query r))) as L.
  destruct (explain (log st) (clean_soql (soql_query r))) as [log' [res | e]];
    [|discriminate].
  cbn [fst] in L. intros [= _ _ E]. rewrite L in E.
  apply (f_equal (@length str)) in E. rewrite length_app in E. simpl in E. lia.
Qed.

Lemma skips_iff (st : state) (r : Row) :
  Skips F float_repr access_token instance_url requests_get st r
  <-> dispatches r = false.
Proof.
  split; [|apply skip_when_not_dispatched].
  intros H. destruct (dispatches r) eqn:E; [|reflexivity].
  exfalso. now apply (no_skip_when_dispatched st r).
Qed.

End Service.

End ExplainerFacts.

(* ================================================================= *)
(** * The claims on the explainer *)

Module ExplainerClaims.

Import Re ReFacts PyFacts PatternFacts NormalizerFacts Explainer Stated
  ExplainerFacts Examples.

Section Service.

Variable F : Type.
Variable float_repr : F -> str.
Variable access_token : str.
Variable instance_url : str.
Variable requests_get :
  list str -> str -> list (str * str) -> outcome (Response F).

#[local] Abbreviation Skips' :=
  (Skips F float_repr access_token instance_url requests_get).
#[local] Abbreviation Dispatches' :=
  (Dispatches F float_repr access_token instance_url requests_get).

(** C3, amended.  A row is skipped exactly when its [testClass] or its
    [has_binding], lowercased, is not ["false"]; for the rows the extractor
    writes, whose two columns read ["true"] or ["false"], that is: when
    [testClass] is ["true"] or [has_binding] is ["true"].  Every other row
    is dispatched: one request is made, and when it returns a response the
    result is stored in [explain_plan]. *)
Theorem skip_iff_not_both_false (st : state) (r : Row) :
  (Skips' st r
   <-> ~ (Py.lower (testClass r) = "false"
          /\ Py.lower (has_binding r) = "false"))
  /\ (~ Skips' st r -> Dispatches' st r)
  /\ ((testClass r = "true" \/ testClass r = "false") ->
      (has_binding r = "true" \/ has_binding r = "false") ->
      (Skips' st r <-> testClass r = "true" \/ has_binding r = "true")).
Proof.
  rewrite skips_iff, <- dispatches_iff.
  split; [|split].
  - destruct (dispatches r); split; congruence.
  - intros H. apply dispatch_when_dispatched.
    destruct (dispatches r); congruence.
  - unfold dispatches.
    intros [E1 | E1] [E2 | E2]; rewrite E1, E2; vm_compute; split; intros H;
      try reflexivity; try discriminate H;
      try (left; reflexivity); try (right; reflexivity);
      destruct H as [H | H]; discriminate H.
Qed.

(** C10.  The test that decides the dispatch reads the two columns through
    [lower]: a row is dispatched exactly when both columns are casings of
    [false], and skipped for any other value of either; rows whose columns
    agree up to casing are treated alike. *)
Theorem dispatch_ignores_casing (st : state) (r : Row) :
  (forall v, Py.lower v = "false" <-> is_false_text v)
  /\ (is_false_text (testClass r) /\ is_false_text (has_binding r)
      <-> Dispatches' st r /\ ~ Skips' st r)
  /\ (~ (is_false_text (testClass r) /\ is_false_text (has_binding r))
      <-> Skips' st r)
  /\ (forall r',
        Py.lower (testClass r') = Py.lower (testClass r) ->
        Py.lower (has_binding r') = Py.lower (has_binding r) ->
        dispatches r' = dispatches r
        /\ (Skips' st r' <-> Skips' st r)).
Proof.
  split; [exact lower_false_iff|].
  rewrite <- !lower_false_iff, <- dispatches_iff, !skips_iff.
  split; [|split].
  - split.
    + intros H. split; [now apply dispatch_when_dispatched | congruence].
    + intros [_ H]. now destruct (dispatches r).
  - now destruct (dispatches r).
  - intros r' H1 H2.
    assert (E : dispatches r' = dispatches r)
      by (unfold dispatches; now rewrite H1, H2).
    split; [exact E|]. now rewrite !skips_iff, E.
Qed.

End Service.

(** C3, as stated: a row whose [testClass] reads [TRUE] is skipped, though
    neither column equals ["true"]. *)
Lemma skip_only_on_true_counterexample :
  ~ (Skips Z float_repr0 "token" "https://org" refusing
       {| output_rows := []; html_rows := []; log := [] |} row1
     <-> testClass row1 = "true" \/ has_binding row1 = "true").
Proof.
  intros [H _].
  assert (S : Skips Z float_repr0 "token" "https://org" refusing
                {| output_rows := []; html_rows := []; log := [] |} row1)
    by (apply skip_when_not_dispatched; reflexivity).
  destruct (H S) as [E | E]; discriminate E.
Qed.

Lemma float_repr0_nonempty (z : Z) : float_repr0 z <> [].
Proof.
  unfold float_repr0. destruct (Py.str_of_int z); discriminate.
Qed.

(** C4.  The failures that [explain_soql] meets once the request has
    returned are recorded, and the run goes on: a status other than 200 as
    [Error: <status> - <body>], a body that is not JSON as [Invalid JSON in
    response].  A failure of the request itself is not: nothing catches
    the exception of [requests.get], which ends the run; no row is
    recorded, not even the rows already processed. *)
Theorem request_failure_aborts_run :
  process_csv Z float_repr0 "token" "https://org" unreachable [row1; row0; row1]
  = Raised "ConnectionError"
  /\ (exists st,
        process_csv Z float_repr0 "token" "https://org" refusing
          [row1; row0; row1] = Returned st
        /\ map explain_plan (output_rows st)
           = [("" : str); ("Error: 401 - Session expired" : str); ("" : str)])
  /\ (exists st,
        process_csv Z float_repr0 "token" "https://org" garbled
          [row1; row0; row1] = Returned st
        /\ map explain_plan (output_rows st)
           = [("" : str); ("Invalid JSON in response" : str); ("" : str)]).
Proof.
  split; [vm_compute; reflexivity|].
  split; eexists; (split; [vm_compute; reflexivity|]); vm_compute; reflexivity.
Qed.

End ExplainerClaims.

(* ================================================================= *)
(** * Further properties of the explainer *)

Module ExplainerMore.

Import Re ReFacts PyFacts PatternFacts NormalizerFacts Explainer Stated
  ExplainerFacts Examples Described.

Section Service.

Variable F : Type.
Variable float_repr : F -> str.
Variable access_token : str.
Variable instance_url : str.
Variable requests_get :
  list str -> str -> list (str * str) -> outcome (Response F).

#[local] Abbreviation run_rows :=
  (process_rows F float_repr access_token instance_url requests_get).
#[local] Abbreviation run_row :=
  (process_row F float_repr access_token instance_url requests_get).
#[local] Abbreviation run_csv :=
  (process_csv F float_repr access_token instance_url requests_get).

(** What one row adds to the state. *)
Lemma process_row_returned (st st' : state) (r : Row) :
  run_row st r = Returned st' ->
  exists rec,
    output_rows st' = output_rows st ++ [rec]
    /\ row rec = r
    /\ modified_soql rec = clean_soql (soql_query r)
    /\ html_rows st'
       = html_rows st ++ map html_row (filter dispatched [rec])
    /\ log st' = log st ++ urls_of_rows instance_url [r].
Proof.
  unfold process_row, urls_of_rows, dispatched. cbn [filter map].
  destruct (dispatches r) eqn:D.
  - pose proof (explain_soql_log F float_repr access_token instance_url
                  requests_get (log st) (clean_soql (soql_query r))) as L.
    destruct (explain_soql F float_repr access_token instance_url requests_get
                (log st) (clean_soql (soql_query r))) as [log' [res | e]];
      [|discriminate].
    cbn [fst] in L. intros [= <-]. exists (explained_record r res).
    cbn. rewrite D. repeat split; try reflexivity. exact L.
  - intros [= <-]. exists (skipped_record r). cbn. rewrite D, !app_nil_r.
    repeat split; reflexivity.
Qed.

Lemma process_rows_returned (rows : list Row) :
  forall st st',
    run_rows st rows = Returned st' ->
    exists recs,
      output_rows st' = output_rows st ++ recs
      /\ map row recs = rows
      /\ Forall (fun rec =>
                   modified_soql rec = clean_soql (soql_query (row rec))) recs
      /\ html_rows st' = html_rows st ++ map html_row (filter dispatched recs)
      /\ log st' = log st ++ urls_of_rows instance_url rows.
Proof.
  induction rows as [|r rows IH]; intros st st'; cbn [process_rows].
  - intros [= <-]. exists []. cbn. rewrite !app_nil_r.
    repeat split; constructor.
  - destruct (run_row st r) as [st1 | e] eqn:E; [|discriminate].
    intros H. apply IH in H as (recs & O & M & A & H & L).
    apply process_row_returned in E as (rec & O1 & R1 & M1 & H1 & L1).
    exists (rec :: recs). rewrite O, O1, H, H1, L, L1, <- !app_assoc.
    split; [reflexivity|]. split; [cbn; now rewrite R1, M|].
    split; [constructor; [now rewrite R1 | exact A]|].
    split.
    + f_equal. change (rec :: recs) with ([rec] ++ recs).
      now rewrite filter_app, map_app.
    + f_equal. unfold urls_of_rows. change (r :: rows) with ([r] ++ rows).
      now rewrite filter_app, map_app.
Qed.

Lemma process_rows_app (rows1 rows2 : list Row) :
  forall st,
    run_rows st (rows1 ++ rows2)
    = match run_rows st rows1 with
      | Returned st1 => run_rows st1 rows2
      | Raised e => Raised e
      end.
Proof.
  induction rows1 as [|r rows1 IH]; intros st; cbn [process_rows app].
  - reflexivity.
  - destruct (run_row st r); [apply IH | reflexivity].
Qed.

Lemma process_row_raised (st : state) (r : Row) (e : str) :
  run_row st r = Raised e
  <-> dispatches r = true
      /\ requests_get (log st)
           (explain_url instance_url (clean_soql (soql_query r)))
           (explain_headers access_token) = Raised e.
Proof.
  unfold process_row, explain_soql.
  destruct (dispatches r).
  - destruct (requests_get (log st)
                (explain_url instance_url (clean_soql (soql_query r)))
                (explain_headers access_token)) as [resp | e'].
    + split; [discriminate | intros [_ H]; discriminate H].
    + split; [intros [= ->]; now split | intros [_ [= ->]]; reflexivity].
  - split; [discriminate | intros [H _]; discriminate H].
Qed.

(** The report has one row for each row read, in the same order, with the
    columns read and the cleaned query. *)
Theorem process_csv_keeps_rows (rows : list Row) (st : state) :
  run_csv rows = Returned st ->
  map row (output_rows st) = rows
  /\ length (output_rows st) = length rows
  /\ forall rec, In rec (output_rows st) ->
       modified_soql rec = clean_soql (soql_query (row rec)).
Proof.
  intros H. apply process_rows_returned in H as (recs & O & M & A & _).
  cbn in O. subst recs. split; [exact M|].
  split; [now rewrite <- M, length_map|].
  now apply Forall_forall.
Qed.


Lemma filter_dispatched_length (recs : list ExplainRecord) :
  length (filter dispatched recs) = length (filter dispatches (map row recs)).
Proof.
  induction recs as [|rec recs IH]; cbn; [reflexivity|].
  unfold dispatched at 1. destruct (dispatches (row rec)); cbn; now rewrite IH.
Qed.

(** The table of the HTML report: one row for each dispatched row of the
    report, in order; the skipped rows are left out. *)
Theorem process_csv_html_rows (rows : list Row) (st : state) :
  run_csv rows = Returned st ->
  html_rows st = map html_row (filter dispatched (output_rows st))
  /\ length (html_rows st) = length (filter dispatches rows).
Proof.
  intros H. apply process_rows_returned in H as (recs & O & M & _ & H & _).
  cbn in O, H. subst recs. split; [exact H|].
  now rewrite H, length_map, filter_dispatched_length, M.
Qed.

(** A request that raises ends the run: when [requests.get] raises for a
    dispatched row, the rows before it having been processed, the run
    ends with that exception, whatever rows follow. *)
Theorem process_csv_request_raises (rows1 rows2 : list Row) (r : Row)
  (st1 : state) (e : str) :
  run_csv rows1 = Returned st1 ->
  dispatches r = true ->
  requests_get (log st1)
    (explain_url instance_url (clean_soql (soql_query r)))
    (explain_headers access_token) = Raised e ->
  run_csv (rows1 ++ r :: rows2) = Raised e.
Proof.
  unfold process_csv. intros H1 D R.
  rewrite process_rows_app, H1.
  cbn [process_rows].
  assert (E : run_row st1 r = Raised e)
    by (apply process_row_raised; now split).
  now rewrite E.
Qed.

(** A failure met after the request has returned is recorded, and the run
    goes on with the next row: the row is stored with the error text as
    its [explain_plan], and it gets its row in the HTML table. *)
Theorem explain_failure_recorded (st : state) (r : Row) (rest : list Row)
  (response : Response F) :
  dispatches r = true ->
  requests_get (log st)
    (explain_url instance_url (clean_soql (soql_query r)))
    (explain_headers access_token) = Returned response ->
  status_code F response <> 200%Z
  \/ (forall plan, json F response <> Some (Json.Object plan)) ->
  exists explain : str,
    explain
    = (if (status_code F response =? 200)%Z
       then list_ascii_of_string "Invalid JSON in response"
       else "Error: " ++ Py.str_of_int (status_code F response)
            ++ " - " ++ text F response)
    /\ run_rows st (r :: rest)
       = run_rows
           {| output_rows := output_rows st ++ [explained_record r explain];
              html_rows :=
                html_rows st ++ [html_row (explained_record r explain)];
              log :=
                log st
                ++ [explain_url instance_url (clean_soql (soql_query r))] |}
           rest.
Proof.
  intros D R Hfail. eexists. split; [reflexivity|].
  cbn [process_rows]. unfold process_row, explain_soql. rewrite D, R.
  destruct (status_code F response =? 200)%Z eqn:S; [|reflexivity].
  destruct Hfail as [Hs | Hj]; [now apply Z.eqb_eq in S|].
  destruct (json F response) as [[ | | | | | | plan]|]; try reflexivity.
  now destruct (Hj plan).
Qed.

Lemma process_rows_plans (rows : list Row) :
  (forall f, float_repr f <> []) ->
  forall st st',
    run_rows st rows = Returned st' ->
    exists recs,
      output_rows st' = output_rows st ++ recs
      /\ Forall (fun rec =>
                   explain_plan rec = [] <-> dispatches (row rec) = false) recs.
Proof.
  intros Hf. induction rows as [|r rows IH]; intros st st'; cbn [process_rows].
  - intros [= <-]. exists []. now rewrite app_nil_r.
  - destruct (run_row st r) as [st1 | e] eqn:E; [|discriminate].
    intros H. apply IH in H as (recs & O & A).
    unfold process_row in E. destruct (dispatches r) eqn:D.
    + destruct (explain_soql F float_repr access_token instance_url
                  requests_get (log st) (clean_soql (soql_query r)))
        as [log' [res | e]] eqn:X; [|discriminate].
      assert (Hne : res <> []).
      { pose proof X as X'. unfold explain_soql in X'.
        destruct (requests_get (log st)
                    (explain_url instance_url (clean_soql (soql_query r)))
                    (explain_headers access_token)) as [response | e] eqn:R;
          [|discriminate X'].
        destruct (explain_soql_returned F float_repr access_token instance_url
                    requests_get _ _ response R Hf) as (result & Er & Hne).
        rewrite X in Er. cbn [snd] in Er. injection Er as ->. exact Hne. }
      injection E as <-.
      eexists (_ :: recs). cbn [output_rows] in O. rewrite O, <- app_assoc.
      split; [reflexivity|]. constructor; [|exact A].
      cbn [explain_plan row]. rewrite D. split; [contradiction | discriminate].
    + injection E as <-. eexists (_ :: recs). cbn [output_rows] in O.
      rewrite O, <- app_assoc. split; [reflexivity|].
      constructor; [|exact A]. cbn [explain_plan row]. now rewrite D.
Qed.

(** In the report of a run that returns, the [explain_plan] is empty for
    the skipped rows and for no other: a dispatched row holds a plan or an
    error text. *)
Theorem explain_plan_empty_iff_skipped (rows : list Row) (st : state) :
  (forall f, float_repr f <> []) ->
  run_csv rows = Returned st ->
  forall rec, In rec (output_rows st) ->
    (explain_plan rec = [] <-> dispatches (row rec) = false).
Proof.
  intros Hf H. apply (process_rows_plans rows Hf) in H as (recs & O & A).
  cbn in O. subst recs. now apply Forall_forall.
Qed.

Lemma get_missing (key : str) (default : Json.value F)
  (members : list (str * Json.value F)) :
  (forall kv, In kv members -> fst kv <> key) ->
  Json.get key default members = default.
Proof.
  intros Hk. unfold Json.get.
  destruct (find (fun kv => if str_eq_dec (fst kv) key then true else false)
              members) as [kv|] eqn:E; [|reflexivity].
  apply find_some in E as [Hin Hkey].
  destruct (str_eq_dec (fst kv) key) as [Heq|]; [|discriminate Hkey].
  exfalso. exact (Hk kv Hin Heq).
Qed.

(** A response with status 200 whose JSON object has no member [plans]
    gives the plan of the empty list. *)
Theorem explain_soql_missing_plans (log : list str) (query : str)
  (response : Response F) (plan : list (str * Json.value F)) :
  requests_get log (explain_url instance_url query)
    (explain_headers access_token) = Returned response ->
  status_code F response = 200%Z ->
  json F response = Some (Json.Object plan) ->
  (forall kv, In kv plan -> fst kv <> list_ascii_of_string "plans") ->
  explain_soql F float_repr access_token instance_url requests_get log query
  = (log ++ [explain_url instance_url query],
     Returned (list_ascii_of_string "[]")).
Proof.
  intros Hr Hs Hj Hk. unfold explain_soql.
  rewrite Hr, Hs, Hj, Z.eqb_refl, (get_missing _ _ _ Hk). reflexivity.
Qed.

End Service.

Lemma process_csv_keeps_rows_witness :
  map row (output_rows refused_state) = [row0; row1]
  /\ length (output_rows refused_state) = length [row0; row1]
  /\ forall rec, In rec (output_rows refused_state) ->
       modified_soql rec = clean_soql (soql_query (row rec)).
Proof.
  apply (process_csv_keeps_rows Z float_repr0 "token" "https://org" refusing
           [row0; row1] refused_state).
  vm_compute. reflexivity.
Defined.


Lemma process_csv_html_rows_witness :
  html_rows refused_state
  = map html_row (filter dispatched (output_rows refused_state))
  /\ length (html_rows refused_state)
     = length (filter dispatches [row0; row1]).
Proof.
  apply (process_csv_html_rows Z float_repr0 "token" "https://org" refusing
           [row0; row1] refused_state).
  vm_compute. reflexivity.
Defined.

Lemma explain_soql_missing_plans_witness :
  explain_soql Z float_repr0 "token" "https://org" without_plans [] "SELECT Id FROM A"
  = ([] ++ [explain_url "https://org" "SELECT Id FROM A"],
     Returned (list_ascii_of_string "[]")).
Proof.
  apply (explain_soql_missing_plans Z float_repr0 "token" "https://org"
           without_plans [] "SELECT Id FROM A"
           {| status_code := 200; text := "{}";
              json := Some (Json.Object [("done" : str, Json.Bool true)]) |}
           [("done" : str, Json.Bool true)]).
  - reflexivity.
  - reflexivity.
  - reflexivity.
  - intros kv [<- | []]. vm_compute. discriminate.
Defined.

Lemma process_csv_request_raises_witness :
  process_csv Z float_repr0 "token" "https://org" unreachable
    ([row1] ++ row0 :: [row1])
  = Raised "ConnectionError".
Proof.
  apply (process_csv_request_raises Z float_repr0 "token" "https://org"
           unreachable [row1] [row1] row0
           {| output_rows := [skipped_record row1]; html_rows := [];
              log := [] |}).
  - vm_compute. reflexivity.
  - vm_compute. reflexivity.
  - reflexivity.
Defined.

Lemma explain_failure_recorded_witness :
  exists explain : str,
    explain
    = (if (401 =? 200)%Z
       then list_ascii_of_string "Invalid JSON in response"
       else "Error: " ++ Py.str_of_int 401 ++ " - " ++ "Session expired")
    /\ process_rows Z float_repr0 "token" "https://org" refusing
         {| output_rows := []; html_rows := []; log := [] |} (row0 :: [row1])
       = process_rows Z float_repr0 "token" "https://org" refusing
           {| output_rows := [] ++ [explained_record row0 explain];
              html_rows := [] ++ [html_row (explained_record row0 explain)];
              log :=
                []
                ++ [explain_url "https://org"
                      (clean_soql (soql_query row0))] |}
           [row1].
Proof.
  apply (explain_failure_recorded Z float_repr0 "token" "https://org" refusing
           {| output_rows := []; html_rows := []; log := [] |} row0 [row1]
           {| status_code := 401; text := "Session expired"; json := None |}).
  - vm_compute. reflexivity.
  - reflexivity.
  - left. discriminate.
Defined.

Lemma explain_plan_empty_iff_skipped_witness :
  explain_plan (skipped_record row1) = []
  <-> dispatches (row (skipped_record row1)) = false.
Proof.
  apply (explain_plan_empty_iff_skipped Z float_repr0 "token" "https://org"
           refusing [row0; row1] refused_state).
  - exact ExplainerClaims.float_repr0_nonempty.
  - vm_compute. reflexivity.
  - vm_compute. right. left. reflexivity.
Defined.

(** A query without brackets or whitespace at its ends and without a
    [WITH] segment is left as it is. *)
Theorem clean_soql_fixed_point (soql : str) :
  Trimmed is_bracket soql -> Trimmed Py.isspace soql ->
  ~ HasWithSegment soql ->
  clean_soql soql = soql.
Proof.
  intros Tb Ts Hw. unfold clean_soql, Py.strip_chars, Py.strip.
  change (fun c => Py.char_in c "[]") with is_bracket.
  rewrite (strip_by_trimmed is_bracket soql Tb).
  rewrite sub_no_match by (now rewrite with_occurs_segment).
  now apply strip_by_trimmed.
Qed.

Lemma clean_soql_fixed_point_witness :
  clean_soql "SELECT Id FROM A" = "SELECT Id FROM A".
Proof.
  apply (clean_soql_fixed_point "SELECT Id FROM A").
  - split; intros c; vm_compute; intros [= <-]; reflexivity.
  - split; intros c; vm_compute; intros [= <-]; reflexivity.
  - rewrite <- with_occurs_segment, <- finditer_nil_iff. vm_compute.
    reflexivity.
Defined.

End ExplainerMore.

(* ================================================================= *)
(** * Further properties of the extractor *)

Module ExtractorMore.

Import Re ReFacts PyFacts PatternFacts Extractor Stated ExtractorFacts
  Examples Described.

#[local] Arguments lit : simpl never.

(** *** Whitespace normalization *)

Lemma split_from_words (s : str) :
  forall word,
    forallb nonspace word = true ->
    Forall is_word_of_text (Py.split_from word s).
Proof.
  induction s as [|c s IH]; intros word Hw; cbn [Py.split_from].
  - destruct word as [|w word]; constructor; [|constructor].
    split; [discriminate | exact Hw].
  - destruct (Py.isspace c) eqn:Hc.
    + destruct word as [|w word]; [now apply IH|].
      constructor; [split; [discriminate | exact Hw] | now apply IH].
    + apply IH. rewrite forallb_app, Hw. cbn. unfold nonspace. now rewrite Hc.
Qed.

Lemma split_from_word (w : str) :
  forallb nonspace w = true ->
  forall word s, Py.split_from word (w ++ s) = Py.split_from (word ++ w) s.
Proof.
  induction w as [|c w IH]; intros Hw word s.
  - now rewrite app_nil_r.
  - cbn in Hw. apply andb_true_iff in Hw as [Hc Hw].
    unfold nonspace in Hc. apply negb_true_iff in Hc.
    cbn [app Py.split_from]. rewrite Hc, IH by assumption.
    now rewrite <- app_assoc.
Qed.

Lemma split_join (words : list str) :
  Forall is_word_of_text words ->
  Py.split (Py.join " " words) = words.
Proof.
  unfold Py.split. induction 1 as [|w words [Hne Hw] _ IH]; [reflexivity|].
  destruct words as [|w' words].
  - cbn [Py.join]. rewrite <- (app_nil_r w) at 1.
    rewrite split_from_word by assumption. cbn.
    destruct w; [contradiction | reflexivity].
  - change (Py.join " " (w :: w' :: words))
      with (w ++ " "%char :: Py.join " " (w' :: words)).
    rewrite split_from_word by assumption. cbn [app Py.split_from].
    change (Py.isspace " ") with true. cbv iota.
    destruct w; [contradiction|]. now rewrite IH.
Qed.

(** Normalizing a normalized text changes nothing. *)
Lemma normalize_idempotent (s : str) : normalize (normalize s) = normalize s.
Proof.
  unfold normalize. rewrite split_join; [reflexivity|].
  now apply split_from_words.
Qed.

Lemma split_from_starts (s : str) :
  forall word,
    word <> [] ->
    exists w rest, Py.split_from word s = (word ++ w) :: rest.
Proof.
  induction s as [|c s IH]; intros word Hne; cbn [Py.split_from].
  - destruct word; [contradiction|]. exists [], []. now rewrite app_nil_r.
  - destruct (Py.isspace c).
    + destruct word; [contradiction|]. exists []. rewrite app_nil_r. eauto.
    + destruct (IH (word ++ [c])) as (w & rest & E).
      * destruct word; discriminate.
      * exists (c :: w), rest. now rewrite E, <- app_assoc.
Qed.

Lemma normalize_starts (c : ascii) (s : str) :
  Py.isspace c = false -> hd_error (normalize (c :: s)) = Some c.
Proof.
  intros Hc. unfold normalize, Py.split. cbn [Py.split_from]. rewrite Hc.
  destruct (split_from_starts s ([] ++ [c])) as (w & rest & E);
    [discriminate|].
  rewrite E. destruct rest; reflexivity.
Qed.

(** The query of a row is a normalized text: words without whitespace,
    one space between them; it starts with the opening bracket; and
    normalizing it again changes nothing. *)
Theorem soql_query_normalized (filename content : str) (r : QueryRecord) :
  In r (file_records filename (extract_details content)) ->
  (exists words,
     soql_query r = Py.join " " words /\ Forall is_word_of_text words)
  /\ hd_error (soql_query r) = Some "["%char
  /\ normalize (soql_query r) = soql_query r.
Proof.
  intros H. apply ExtractorClaims.file_records_in in H as (a & b & Hin & ->).
  cbn [soql_query]. split; [|split].
  - exists (Py.split (group0 content (a, b))). split; [reflexivity|].
    now apply split_from_words.
  - apply finditer_in in Hin as (_ & _ & _ & M).
    apply soql_matches in M as (ws & kw & body & -> & _).
    now apply normalize_starts.
  - apply normalize_idempotent.
Qed.

Lemma soql_query_normalized_witness :
  (exists words,
     (list_ascii_of_string "[SELECT Id FROM B]") = Py.join " " words
     /\ Forall is_word_of_text words)
  /\ hd_error (list_ascii_of_string "[SELECT Id FROM B]") = Some "["%char
  /\ normalize "[SELECT Id FROM B]" = "[SELECT Id FROM B]".
Proof.
  apply (soql_query_normalized "A.cls"
           ("a = [SELECT  Id" ++ newline ++ "  FROM B];")
           {| class_name := "A.cls"; start_linenumber := 1;
              testClass := "false"; has_binding := "false";
              soql_query := "[SELECT Id FROM B]"; sosl_query := "";
              dml_operations := "" |}).
  vm_compute. left. reflexivity.
Defined.

(** *** The columns of a row *)

(** The two boolean columns read [true] or [false]; [testClass] is the
    same on every row of the file and tells whether the search for a test
    class finds one in the file; [class_name] is the name of the file. *)
Theorem boolean_columns (filename content : str) (r : QueryRecord) :
  In r (file_records filename (extract_details content)) ->
  class_name r = filename
  /\ (testClass r = "true" /\ TestClassFound content
      \/ testClass r = "false" /\ ~ TestClassFound content)
  /\ (has_binding r = "true" /\ In ":"%char (soql_query r)
      \/ has_binding r = "false" /\ ~ In ":"%char (soql_query r)).
Proof.
  intros H. apply ExtractorClaims.file_records_in in H as (a & b & Hin & ->).
  cbn [class_name testClass has_binding soql_query].
  split; [reflexivity|]. split.
  - destruct (is_test content) eqn:E.
    + left. split; [reflexivity | now apply is_test_found].
    + right. split; [reflexivity|]. intros T. apply is_test_found in T.
      congruence.
  - destruct (Py.char_in ":" (normalize (group0 content (a, b)))) eqn:E.
    + left. split; [reflexivity | now apply char_in_iff].
    + right. split; [reflexivity|]. intros T. apply char_in_iff in T. congruence.
Qed.

Lemma boolean_columns_witness :
  (list_ascii_of_string "A.cls") = "A.cls"
  /\ ((list_ascii_of_string "true") = "true"
      /\ TestClassFound ("@IsTest class A { a = [SELECT Id FROM B]; }")
      \/ (list_ascii_of_string "true") = "false"
         /\ ~ TestClassFound ("@IsTest class A { a = [SELECT Id FROM B]; }"))
  /\ ((list_ascii_of_string "false") = "true"
      /\ In ":"%char (list_ascii_of_string "[SELECT Id FROM B]")
      \/ (list_ascii_of_string "false") = "false"
         /\ ~ In ":"%char (list_ascii_of_string "[SELECT Id FROM B]")).
Proof.
  apply (boolean_columns "A.cls" "@IsTest class A { a = [SELECT Id FROM B]; }"
           {| class_name := "A.cls"; start_linenumber := 1;
              testClass := "true"; has_binding := "false";
              soql_query := "[SELECT Id FROM B]"; sosl_query := "";
              dml_operations := "" |}).
  vm_compute. left. reflexivity.
Defined.

(** *** The nearest closing bracket *)

Lemma hd_flat_map_first {A B : Type} (f : A -> list B) (l : list A) (x : B) :
  hd_error (flat_map f l) = Some x ->
  exists l1 y l2,
    l = l1 ++ y :: l2 /\ Forall (fun z => f z = []) l1
    /\ hd_error (f y) = Some x.
Proof.
  induction l as [|a l IH]; cbn; [discriminate|].
  destruct (f a) as [|b t] eqn:E; cbn.
  - intros H. destruct (IH H) as (l1 & y & l2 & -> & Hl1 & Hy).
    exists (a :: l1), y, l2. repeat split; auto.
  - intros [= ->]. exists [], a, l. rewrite E. repeat split; auto.
Qed.

(** The first candidate of a sequence: the first candidate of the head
    after which the rest matches, and the first candidate of the rest
    there. *)
Lemma hd_ends_seq (fl : flags) (r1 r2 : regex) (prev : option ascii)
  (s : str) (n : nat) :
  hd_error (ends fl (Seq r1 r2) prev s) = Some n ->
  exists l1 n1 l2 n2,
    ends fl r1 prev s = l1 ++ n1 :: l2
    /\ Forall (fun z => ends fl r2 (prev_at prev s z) (skipn z s) = []) l1
    /\ hd_error (ends fl r2 (prev_at prev s n1) (skipn n1 s)) = Some n2
    /\ n = n1 + n2.
Proof.
  cbn [ends]. intros H.
  apply hd_flat_map_first in H as (l1 & n1 & l2 & E & Hl1 & H).
  apply NormalizerFacts.hd_map_add in H as (n2 & -> & H).
  exists l1, n1, l2, n2. repeat split; try assumption.
  apply Forall_impl with (2 := Hl1). intros z Hz.
  now apply map_eq_nil in Hz.
Qed.

Lemma seq_split (a k x : nat) (l1 l2 : list nat) :
  seq a k = l1 ++ x :: l2 -> l1 = seq a (x - a) /\ a <= x.
Proof.
  revert a l1. induction k as [|k IH]; intros a l1; cbn.
  - destruct l1; discriminate.
  - destruct l1 as [|y l1]; cbn.
    + intros [= <- _]. rewrite Nat.sub_diag. split; [reflexivity | lia].
    + intros [= <- H]. apply IH in H as [-> Ha]. split; [|lia].
      replace (x - a) with (S (x - S a)) by lia. reflexivity.
Qed.

Lemma in_firstn_nth {A : Type} (x : A) (n : nat) (l : list A) :
  In x (firstn n l) -> exists z, z < n /\ nth_error l z = Some x.
Proof.
  revert l. induction n as [|n IH]; intros l; cbn; [intros []|].
  destruct l as [|y l]; cbn; [intros []|].
  intros [<- | H]; [exists 0; split; [lia | reflexivity]|].
  apply IH in H as (z & Hz & E). exists (S z). split; [lia | exact E].
Qed.

Lemma ends_chr (fl : flags) (c : cclass) (prev : option ascii) (s : str)
  (n : nat) :
  hd_error (ends fl (Chr c) prev s) = Some n ->
  exists ch t, s = ch :: t /\ accepts fl c ch = true /\ n = 1.
Proof.
  cbn [ends]. destruct s as [|ch t]; [discriminate|].
  destruct (accepts fl c ch) eqn:E; [|discriminate].
  intros [= <-]. now exists ch, t.
Qed.

Lemma lower_has_no_bracket (kw : str) :
  Py.lower kw = "select" -> ~ In "]"%char kw.
Proof.
  intros E H. apply (in_map Py.lower_char) in H. fold (Py.lower kw) in H.
  rewrite E in H. vm_compute in H.
  repeat (destruct H as [H | H]; [discriminate H|]). exact H.
Qed.

Lemma spaces_have_no_bracket (ws : str) :
  forallb Py.isspace ws = true -> ~ In "]"%char ws.
Proof.
  intros E H. rewrite forallb_forall in E. apply E in H. discriminate H.
Qed.

(** The first candidate of the SOQL pattern ends at the nearest []]. *)
Lemma soql_first_end (prev : option ascii) (s : str) (n : nat) :
  hd_error (candidates soql_pattern prev s) = Some n ->
  exists inner,
    firstn n s = "["%char :: inner ++ ["]"%char] /\ ~ In "]"%char inner.
Proof.
  unfold candidates. cbn [soql_pattern flag expr]. intros H.
  apply hd_ends_seq in H as (l1 & n1 & l1' & m1 & E1 & _ & H & ->).
  assert (H1 : hd_error (ends I_S (Chr (Lit "[")) prev s) = Some n1).
  { cbn [ends] in *. destruct s as [|ch t]; [destruct l1; discriminate|].
    destruct (accepts I_S (Lit "[") ch); [|destruct l1; discriminate].
    destruct l1 as [|? [|]]; [|discriminate..]. injection E1 as <- _.
    reflexivity. }
  apply ends_chr in H1 as (ch & s1 & -> & Hch & ->). clear E1 l1 l1'.
  apply Ascii.eqb_eq, lower_open_bracket in Hch. subst ch.
  change (skipn 1 ("["%char :: s1)) with s1 in H.
  remember (prev_at prev ("["%char :: s1) 1) as p1 eqn:Ep1. clear Ep1.
  apply hd_ends_seq in H as (l2 & n2 & l2' & m2 & E2 & _ & H & ->).
  assert (W : In n2 (ends I_S (Star Space) p1 s1))
    by (rewrite E2; apply in_elt).
  apply ends_spec in W as [Hn2 W]. cbn [Matches] in W. clear E2 l2 l2'.
  remember (prev_at p1 s1 n2) as p2 eqn:Ep2. clear Ep2.
  apply hd_ends_seq in H as (l3 & n3 & l3' & m3 & E3 & _ & H & ->).
  assert (K : In n3 (ends I_S (lit "SELECT") p2 (skipn n2 s1)))
    by (rewrite E3; apply in_elt).
  apply ends_spec in K as [Hn3 K].
  apply matches_lit_ignorecase in K; [|reflexivity]. clear E3 l3 l3'.
  remember (prev_at p2 (skipn n2 s1) n3) as p3 eqn:Ep3. clear Ep3.
  apply hd_ends_seq in H as (l4 & n4 & l4' & m4 & E4 & F4 & H & ->).
  cbn [ends] in E4. apply seq_split in E4 as [-> _].
  rewrite Nat.sub_0_r in F4.
  apply ends_chr in H as (ch & t & Et & Hch & ->).
  apply Ascii.eqb_eq, lower_close_bracket in Hch. subst ch.
  set (s2 := skipn n2 s1) in *. set (s3 := skipn n3 s2) in *.
  exists (firstn n2 s1 ++ firstn n3 s2 ++ firstn n4 s3). split.
  - change (1 + (n2 + (n3 + (n4 + 1)))) with (S (n2 + (n3 + (n4 + 1)))).
    cbn [firstn]. f_equal.
    rewrite firstn_plus. fold s2. rewrite firstn_plus. fold s3.
    rewrite firstn_plus, Et. rewrite <- !app_assoc. reflexivity.
  - rewrite !in_app_iff. intros [B | [B | B]].
    + now apply spaces_have_no_bracket in B.
    + now apply lower_has_no_bracket in B.
    + apply in_firstn_nth in B as (z & Hz & Ez).
      rewrite Forall_forall in F4. specialize (F4 z).
      rewrite in_seq in F4. specialize (F4 ltac:(lia)).
      rewrite <- hd_error_skipn in Ez.
      cbn [ends] in F4. destruct (skipn z s3) as [|c t']; [discriminate|].
      injection Ez as ->. cbn in F4. discriminate F4.
Qed.

Lemma soql_not_empty (prev : option ascii) (s : str) :
  ~ In 0 (candidates soql_pattern prev s).
Proof.
  intros H. apply ends_spec in H as [_ M]. apply soql_matches in M.
  destruct M as (ws & kw & body & E & _). discriminate E.
Qed.

(** The text of a SOQL match: an opening bracket, a text without a
    closing bracket, a closing bracket.  The match ends at the nearest
    []], also when the query holds one in a string literal. *)
Theorem soql_match_nearest_bracket (content : str) (a b : nat) :
  In (a, b) (finditer soql_pattern content) ->
  exists inner,
    group0 content (a, b) = "["%char :: inner ++ ["]"%char]
    /\ ~ In "]"%char inner.
Proof.
  intros H. apply scan_in_attempts in H as (k & n & -> & -> & Hk & Hn).
  unfold match_at in Hn.
  apply attempts_first in Hn; [|apply soql_not_empty].
  apply soql_first_end in Hn.
  unfold group0, Py.slice. cbn [fst snd plus].
  replace (k + n - k) with n by lia. exact Hn.
Qed.

Lemma soql_match_nearest_bracket_witness :
  exists inner,
    group0 "x = [SELECT Id FROM A WHERE n = ']' LIMIT 1];" (4, 34)
    = "["%char :: inner ++ ["]"%char]
    /\ ~ In "]"%char inner.
Proof.
  apply (soql_match_nearest_bracket
           "x = [SELECT Id FROM A WHERE n = ']' LIMIT 1];" 4 34).
  vm_compute. left. reflexivity.
Defined.

End ExtractorMore.

(* ================================================================= *)
(** * Further properties of the extractor: order, folders, DML *)

Module ExtractorOrder.

Import Re ReFacts PyFacts PatternFacts Extractor Stated ExtractorFacts
  Examples Described.

Lemma attempts_shape (cands : list nat) :
  attempts cands = []
  \/ (exists n, attempts cands = [S n])
  \/ attempts cands = [0]
  \/ (exists n, attempts cands = [0; S n]).
Proof.
  destruct cands as [|[|c] l]; cbn [attempts]; [now left | | right; left; eauto].
  destruct (find (Nat.ltb 0) (0 :: l)) as [[|n]|] eqn:E.
  - apply find_some in E as [_ E]. discriminate E.
  - right; right; right. eauto.
  - right; right; now left.
Qed.

Lemma sorted_app {A : Type} (R : A -> A -> Prop) (l1 l2 : list A) :
  StronglySorted R l1 -> StronglySorted R l2 ->
  (forall x y, In x l1 -> In y l2 -> R x y) ->
  StronglySorted R (l1 ++ l2).
Proof.
  induction 1 as [|x l1 S1 IH F1]; intros S2 H; cbn; [exact S2|].
  constructor.
  - apply IH; [exact S2|]. intros a b Ha Hb. apply H; [now right | exact Hb].
  - apply Forall_app. split; [exact F1|].
    apply Forall_forall. intros y Hy. apply H; [now left | exact Hy].
Qed.

(** The scan goes forward: a span starts at or after the position, and
    after the characters still to skip. *)
Lemma scan_ge (p : pattern) (s : str) :
  forall pos prev skip a b,
    In (a, b) (scan p pos prev s skip) -> pos + skip <= a /\ a <= b.
Proof.
  induction s as [|c s IH]; intros pos prev skip a b; cbn [scan];
    rewrite in_app_iff, in_map_iff.
  - intros [(n & [= <- <-] & Hn) | []].
    destruct skip; [lia | destruct Hn].
  - intros [(n & [= <- <-] & Hn) | H].
    + destruct skip; [lia | destruct Hn].
    + apply IH in H as [H1 H2]. split; [|exact H2].
      destruct skip; lia.
Qed.

(** The spans of a scan are in text order and do not overlap. *)
Lemma scan_sorted (p : pattern) (s : str) :
  forall pos prev skip, StronglySorted before (scan p pos prev s skip).
Proof.
  induction s as [|c s IH]; intros pos prev skip; cbn [scan].
  - rewrite app_nil_r. destruct skip; [|constructor].
    destruct (attempts_shape (candidates p prev []))
      as [-> | [[n ->] | [-> | [n ->]]]]; cbn;
      repeat (constructor; unfold before; cbn; try lia).
  - apply sorted_app.
    + destruct skip; [|constructor].
      destruct (attempts_shape (candidates p prev (c :: s)))
        as [-> | [[n ->] | [-> | [n ->]]]]; cbn;
        repeat (constructor; unfold before; cbn; try lia).
    + apply IH.
    + intros x [a b] Hx Hy. apply scan_ge in Hy as [Hy _].
      unfold before. cbn [fst snd]. destruct skip; [|destruct Hx].
      destruct (attempts_shape (candidates p prev (c :: s)))
        as [E | [[n E] | [E | [n E]]]]; rewrite E in Hx, Hy; cbn in Hx, Hy;
        repeat (destruct Hx as [<- | Hx]; [cbn; lia|]); destruct Hx.
Qed.

Lemma count_firstn_le (c : ascii) (s : str) (a b : nat) :
  a <= b -> Py.count c (firstn a s) <= Py.count c (firstn b s).
Proof.
  unfold Py.count. revert a b. induction s as [|x s IH]; intros a b Hab.
  - now rewrite !firstn_nil.
  - destruct a as [|a]; [cbn; lia|]. destruct b as [|b]; [lia|].
    cbn [firstn count_occ]. specialize (IH a b ltac:(lia)).
    destruct (ascii_dec x c); lia.
Qed.

Lemma count_firstn_total (c : ascii) (s : str) (a : nat) :
  Py.count c (firstn a s) <= Py.count c s.
Proof.
  unfold Py.count. revert a. induction s as [|x s IH]; intros a.
  - now rewrite firstn_nil.
  - destruct a as [|a]; [cbn; lia|]. cbn [firstn count_occ].
    specialize (IH a). destruct (ascii_dec x c); lia.
Qed.

Lemma sorted_map {A B : Type} (R : A -> A -> Prop) (R' : B -> B -> Prop)
  (f : A -> B) (l : list A) :
  (forall x y, In x l -> In y l -> R x y -> R' (f x) (f y)) ->
  StronglySorted R l -> StronglySorted R' (map f l).
Proof.
  intros H S. induction S as [|x l S IH F]; cbn; constructor.
  - apply IH. intros a b Ha Hb. apply H; now right.
  - apply Forall_map. rewrite Forall_forall in *. intros y Hy.
    apply H; [now left | now right | now apply F].
Qed.

(** The SOQL matches of a file are in text order and do not overlap:
    each one ends before the next one starts, and none is empty or runs
    past the end of the text. *)
Theorem soql_matches_disjoint (content : str) :
  StronglySorted before (finditer soql_pattern content)
  /\ forall a b,
       In (a, b) (finditer soql_pattern content) ->
       a < b /\ b <= length content.
Proof.
  split; [apply scan_sorted|]. intros a b H.
  destruct (finditer_in _ _ _ _ H) as (Hab & Hb & _ & M).
  apply soql_matches in M as (ws & kw & body & E & _).
  split; [|exact Hb].
  apply (f_equal (@length ascii)) in E. unfold group0, Py.slice in E.
  cbn [fst snd] in E. rewrite firstn_length_le in E
    by (rewrite length_skipn; lia).
  cbn in E. lia.
Qed.

(** The rows of a file are as many as its SOQL matches; their line numbers
    never decrease from one row to the next, start at 1, and do not pass
    the number of lines of the text. *)
Theorem line_numbers_nondecreasing (filename content : str) :
  length (file_records filename (extract_details content))
  = length (finditer soql_pattern content)
  /\ StronglySorted le
       (map start_linenumber (file_records filename (extract_details content)))
  /\ forall r,
       In r (file_records filename (extract_details content)) ->
       1 <= start_linenumber r <= 1 + Py.count "010" content.
Proof.
  split; [|split].
  - unfold file_records, extract_details, soql_results.
    now rewrite !length_map.
  - unfold file_records, extract_details, soql_results. rewrite !map_map.
    cbn [start_linenumber]. apply sorted_map with (R := before).
    + intros [a b] [a' b'] Hx Hy Hxy. unfold before in Hxy. cbn in *.
      apply scan_ge in Hx as [_ Hx].
      unfold Py.slice. rewrite !Nat.sub_0_r. cbn [skipn].
      apply Nat.add_le_mono_r, count_firstn_le. lia.
    + apply scan_sorted.
  - intros r H. apply ExtractorClaims.file_records_in in H as (a & b & _ & ->).
    cbn [start_linenumber]. pose proof (count_firstn_total "010" content a).
    lia.
Qed.

(** *** Folders *)

Section Files.

Variable read_text : str -> option str.

Lemma process_files_some (root : str) (files : list str) :
  forall records result,
    process_files read_text root files records = Some result ->
    result = records ++ flat_map (rows_of_file read_text root) files
    /\ ~ exists filename,
           In filename files /\ Py.endswith filename ".cls" = true
           /\ read_text (path_join root filename) = None.
Proof.
  induction files as [|filename files IH]; intros records result;
    cbn [process_files flat_map].
  - intros [= <-]. rewrite app_nil_r. split; [reflexivity|].
    intros (f & [] & _).
  - unfold rows_of_file at 1, extract_details_from_file.
    destruct (Py.endswith filename ".cls") eqn:E.
    + destruct (read_text (path_join root filename)) as [content|] eqn:R;
        [|discriminate].
      intros H. apply IH in H as [-> N]. split; [now rewrite app_assoc|].
      intros (f & [<- | Hf] & Hc & Hr); [congruence|].
      apply N. now exists f.
    + intros H. apply IH in H as [-> N]. split; [reflexivity|].
      intros (f & [<- | Hf] & Hc & Hr); [congruence|].
      apply N. now exists f.
Qed.

Lemma process_files_none (root : str) (files : list str) :
  forall records,
    process_files read_text root files records = None ->
    exists filename,
      In filename files /\ Py.endswith filename ".cls" = true
      /\ read_text (path_join root filename) = None.
Proof.
  induction files as [|filename files IH]; intros records;
    cbn [process_files]; [discriminate|].
  unfold extract_details_from_file.
  destruct (Py.endswith filename ".cls") eqn:E.
  - destruct (read_text (path_join root filename)) as [content|] eqn:R.
    + intros H. apply IH in H as (f & Hf & Hc & Hr).
      exists f. repeat split; auto. now right.
    + intros _. exists filename. repeat split; auto. now left.
  - intros H. apply IH in H as (f & Hf & Hc & Hr).
    exists f. repeat split; auto. now right.
Qed.

Lemma process_walk_result (walk : list (str * list str)) :
  forall records,
    (process_walk read_text walk records
     = Some (records ++ rows_of_walk read_text walk)
     /\ ~ Unreadable read_text walk)
    \/ (process_walk read_text walk records = None
        /\ Unreadable read_text walk).
Proof.
  induction walk as [|[root files] walk IH]; intros records;
    cbn [process_walk].
  - left. cbn. rewrite app_nil_r. split; [reflexivity|].
    intros (r & f & n & [] & _).
  - destruct (process_files read_text root files records) as [records'|] eqn:E.
    + apply process_files_some in E as [-> N].
      destruct (IH (records ++ flat_map (rows_of_file read_text root) files))
        as [[H U] | [H U]].
      * left. rewrite H. unfold rows_of_walk at 2. cbn [flat_map fst snd].
        split; [now rewrite app_assoc|].
        intros (r & f & n & [[= <- <-] | Hin] & Hn & Hc & Hr).
        -- apply N. now exists n.
        -- apply U. now exists r, f, n.
      * right. split; [exact H|].
        destruct U as (r & f & n & Hin & Hn & Hc & Hr).
        exists r, f, n. repeat split; auto. now right.
    + right. split; [reflexivity|].
      apply process_files_none in E as (n & Hn & Hc & Hr).
      exists root, files, n. repeat split; auto. now left.
Qed.

(** A run over a folder either reads every [.cls] file and returns the
    rows of all of them, directory by directory and file by file in the
    order of the walk, files of other kinds adding nothing; or it fails,
    and then some [.cls] file of the walk cannot be read. *)
Theorem process_folder_result (walk : list (str * list str)) :
  (process_folder read_text walk = Some (rows_of_walk read_text walk)
   /\ ~ Unreadable read_text walk)
  \/ (process_folder read_text walk = None /\ Unreadable read_text walk).
Proof.
  unfold process_folder.
  destruct (process_walk_result walk []) as [[H U] | [H U]];
    [left | right]; split; assumption.
Qed.

End Files.

End ExtractorOrder.

(* ================================================================= *)
(** * Further properties of the extractor: the DML keywords *)

Module ExtractorDml.

Import Re ReFacts PyFacts PatternFacts Extractor Stated ExtractorFacts
  Examples Described.

#[local] Arguments lit : simpl never.

(** *** The order of [sorted] *)

Lemma str_ltb_irrefl (a : str) : Py.str_ltb a a = false.
Proof.
  induction a as [|x a IH]; cbn; [reflexivity|].
  now rewrite N.ltb_irrefl.
Qed.

Lemma str_ltb_asym (a b : str) :
  Py.str_ltb a b = true -> Py.str_ltb b a = false.
Proof.
  revert b. induction a as [|x a IH]; intros [|y b]; cbn; try congruence.
  destruct (N.ltb_spec (Py.ord x) (Py.ord y)),
    (N.ltb_spec (Py.ord y) (Py.ord x)); try lia; auto; congruence.
Qed.

Lemma str_le_trans (a b c : str) :
  str_le a b -> str_le b c -> str_le a c.
Proof.
  unfold str_le. revert b c.
  induction a as [|x a IH]; intros [|y b] [|z c]; cbn; try congruence.
  destruct (N.ltb_spec (Py.ord y) (Py.ord x)),
    (N.ltb_spec (Py.ord x) (Py.ord y)),
    (N.ltb_spec (Py.ord z) (Py.ord y)),
    (N.ltb_spec (Py.ord y) (Py.ord z)),
    (N.ltb_spec (Py.ord z) (Py.ord x)),
    (N.ltb_spec (Py.ord x) (Py.ord z));
    try lia; try congruence; auto.
  apply IH.
Qed.

Lemma insert_sorted_in (x y : str) (l : list str) :
  In y (Py.insert_sorted x l) <-> y = x \/ In y l.
Proof.
  induction l as [|z l IH]; cbn; [intuition congruence|].
  destruct (Py.str_ltb z x); cbn; [rewrite IH|]; intuition congruence.
Qed.

Lemma sorted_in (y : str) (l : list str) : In y (Py.sorted l) <-> In y l.
Proof.
  induction l as [|x l IH]; cbn; [tauto|].
  rewrite insert_sorted_in, IH. intuition congruence.
Qed.

Lemma insert_sorted_sorted (x : str) (l : list str) :
  StronglySorted str_le l -> StronglySorted str_le (Py.insert_sorted x l).
Proof.
  induction 1 as [|z l S IH F]; cbn; [repeat constructor|].
  destruct (Py.str_ltb z x) eqn:E.
  - constructor; [exact IH|]. apply Forall_forall. intros y Hy.
    apply insert_sorted_in in Hy as [-> | Hy].
    + now apply str_ltb_asym.
    + rewrite Forall_forall in F. now apply F.
  - constructor; [now constructor|]. constructor; [exact E|].
    apply Forall_impl with (2 := F). intros y Hy.
    now apply str_le_trans with z.
Qed.

Lemma sorted_sorted (l : list str) : StronglySorted str_le (Py.sorted l).
Proof.
  induction l as [|x l IH]; cbn; [constructor|].
  now apply insert_sorted_sorted.
Qed.

(** *** What the DML pattern matches *)

Lemma isword_of_lower (c : ascii) :
  Py.isword (Py.lower_char c) = true -> Py.isword c = true.
Proof. each_char c; vm_compute; intros H; try reflexivity; discriminate H. Qed.

Lemma keyword_chars (m : str) :
  In (Py.lower m) dml_keywords ->
  m <> [] /\ forallb Py.isword m = true.
Proof.
  intros H.
  assert (W : forallb Py.isword (Py.lower m) = true).
  { cbn in H.
    repeat (destruct H as [H | H]; [rewrite <- H; reflexivity|]).
    destruct H. }
  split.
  - intros ->. cbn in H.
    repeat (destruct H as [H | H]; [discriminate H|]). exact H.
  - clear H. induction m as [|c m IH]; [reflexivity|].
    cbn in W. apply andb_true_iff in W as [Wc Wm].
    cbn. rewrite (isword_of_lower c Wc). now apply IH.
Qed.

Lemma hd_word (m rest : str) :
  m <> [] -> forallb Py.isword m = true ->
  is_word (hd_error (m ++ rest)) = true.
Proof.
  destruct m as [|c m]; [contradiction|]. cbn. intros _ H.
  now apply andb_true_iff in H as [H _].
Qed.

Lemma last_word (prev : option ascii) (m : str) :
  m <> [] -> forallb Py.isword m = true ->
  is_word (last_of prev m) = true.
Proof.
  intros Hne H. unfold last_of, prev_at.
  destruct (length m) as [|k] eqn:L; [destruct m; [contradiction | discriminate]|].
  destruct (nth_error m k) as [c|] eqn:E.
  - apply nth_error_In in E. rewrite forallb_forall in H. now apply H.
  - apply nth_error_None in E. lia.
Qed.

Lemma dml_matches (prev : option ascii) (m post : str) :
  Matches (flag dml_pattern) (expr dml_pattern) prev m post
  <-> In (Py.lower m) dml_keywords
      /\ is_word prev = false /\ is_word (hd_error post) = false.
Proof.
  cbn [dml_pattern flag expr Matches]. split.
  - intros (m1 & m2 & -> & [-> B1] & m3 & m4 & -> & A & [-> B2]).
    cbn [app last_of prev_at length] in *. rewrite !app_nil_r in *.
    assert (K : In (Py.lower m3) dml_keywords).
    { cbn.
      destruct A as [A | [A | [A | [A | A]]]];
        apply matches_lit_ignorecase in A; try reflexivity;
        rewrite A; auto 6. }
    destruct (keyword_chars m3 K) as [Hne Hw].
    rewrite (hd_word m3 post Hne Hw) in B1.
    change (prev_at prev m3 (length m3)) with (last_of prev m3) in B2.
    rewrite (last_word prev m3 Hne Hw) in B2.
    split; [exact K|]. split.
    + destruct (is_word prev); [congruence | reflexivity].
    + destruct (is_word (hd_error post)); [congruence | reflexivity].
  - intros (K & P1 & P2). destruct (keyword_chars m K) as [Hne Hw].
    exists [], m. split; [reflexivity|]. split.
    + split; [reflexivity|]. cbn [app].
      rewrite <- (app_nil_r m) at 1. rewrite <- app_assoc.
      rewrite (hd_word m ([] ++ post) Hne Hw). congruence.
    + exists m, []. split; [now rewrite app_nil_r|]. split.
      * cbn in K.
        destruct K as [K | [K | [K | [K | [K | []]]]]];
          [ left | right; left | right; right; left
          | right; right; right; left | right; right; right; right ];
          apply matches_lit_ignorecase; try reflexivity; now rewrite <- K.
      * split; [reflexivity|]. cbn [last_of prev_at length].
        change (prev_at prev m (length m)) with (last_of prev m).
        rewrite (last_word prev m Hne Hw). congruence.
Qed.

(** A word reads a DML keyword when its lowercase form is the keyword. *)
Lemma dml_word_lower (w : str) : DmlWord w <-> In (Py.lower w) dml_keywords.
Proof.
  unfold DmlWord. split.
  - intros (kw & K & S). apply spells_lower in S. rewrite S. cbn in K.
    repeat (destruct K as [<- | K]; [cbn; auto 6|]). destruct K.
  - intros K. exists (Py.lower w). split; [exact K|]. apply spells_lower.
    cbn in K.
    repeat (destruct K as [K | K]; [rewrite <- K; reflexivity|]). destruct K.
Qed.

Lemma dml_word_nonempty (w : str) : DmlWord w -> Py.lower w <> [].
Proof.
  intros K E. apply dml_word_lower in K. rewrite E in K. cbn in K.
  repeat (destruct K as [K | K]; [discriminate K|]). exact K.
Qed.

Lemma dml_matches_word (prev : option ascii) (m post : str) :
  Matches (flag dml_pattern) (expr dml_pattern) prev m post
  <-> DmlWord m /\ is_word prev = false /\ is_word (hd_error post) = false.
Proof. rewrite dml_word_lower. apply dml_matches. Qed.

Lemma dml_occurs_word (content : str) :
  Occurs dml_pattern content <-> exists w, DmlOccurrence content w.
Proof.
  unfold Occurs, DmlOccurrence. split.
  - intros (pre & m & post & E & M). apply dml_matches_word in M.
    exists m, pre, post. tauto.
  - intros (m & pre & post & E & K & P1 & P2). exists pre, m, post.
    split; [exact E|]. apply dml_matches_word. tauto.
Qed.

Lemma join_nil (sep : str) (parts : list str) :
  Forall (fun p => p <> []) parts ->
  Py.join sep parts = [] -> parts = [].
Proof.
  destruct parts as [|p [|q parts]]; cbn; [reflexivity | |].
  - intros H E. inversion H; subst. contradiction.
  - intros H E. inversion H; subst.
    destruct p; [contradiction | discriminate].
Qed.

(** The [dml_operations] of a file: the whole words of the text that read
    a DML keyword, in lower case, in the order of [sorted], joined with a
    comma and a space; and empty exactly when the text holds no such
    word. *)
Theorem dml_operations_keywords (content : str) :
  (exists ops,
     dml_ops_cleaned content = Py.join ", " ops
     /\ Forall (fun op =>
                  exists w, DmlOccurrence content w /\ op = Py.lower w) ops
     /\ StronglySorted str_le ops)
  /\ (dml_ops_cleaned content = [] <-> ~ exists w, DmlOccurrence content w).
Proof.
  assert (K : forall op,
             In op (Py.sorted
                      (map Py.lower (Py.set (findall dml_pattern content)))) ->
             exists w, DmlOccurrence content w /\ op = Py.lower w).
  { intros op H. apply sorted_in, in_map_iff in H as (m & <- & H).
    unfold Py.set in H. apply nodup_In in H.
    unfold findall in H. apply in_map_iff in H as ([a b] & <- & H).
    apply finditer_in in H as (_ & _ & E & M).
    apply dml_matches_word in M as (W & P1 & P2).
    exists (group0 content (a, b)). split; [|reflexivity].
    exists (firstn a content), (skipn b content). tauto. }
  split.
  - exists (Py.sorted (map Py.lower (Py.set (findall dml_pattern content)))).
    split; [reflexivity|]. split; [now apply Forall_forall|].
    apply sorted_sorted.
  - rewrite <- dml_occurs_word, <- finditer_nil_iff. unfold dml_ops_cleaned.
    split.
    + intros E. apply join_nil in E.
      * destruct (finditer dml_pattern content) as [|sp l] eqn:F;
          [reflexivity|].
        exfalso.
        assert (H : In (Py.lower (group0 content sp))
                      (Py.sorted
                         (map Py.lower
                            (Py.set (findall dml_pattern content))))).
        { apply sorted_in, in_map, nodup_In. unfold findall. rewrite F.
          now left. }
        rewrite E in H. destruct H.
      * apply Forall_forall. intros op H Eop.
        apply K in H as (w & (pre & post & _ & W & _) & ->).
        now apply (dml_word_nonempty w).
    + intros E. unfold findall. now rewrite E.
Qed.

End ExtractorDml.

(* ================================================================= *)
(** * Further properties of the normalizer: no [WITH] clause is left *)

Module NormalizerMore.

Import Re ReFacts PyFacts PatternFacts NormalizerFacts Explainer Stated
  Described Deleting ExtractorOrder.

#[local] Arguments lit : simpl never.

Section Kept.

Variable p : pattern.
Hypothesis nonnull : forall prev s, ~ In 0 (candidates p prev s).

Lemma attempts_nonnull (prev : option ascii) (s : str) :
  attempts (candidates p prev s)
  = match candidates p prev s with
    | [] => []
    | n :: _ => [n]
    end.
Proof.
  pose proof (nonnull prev s) as N.
  destruct (candidates p prev s) as [|[|n] l]; cbn [attempts];
    [reflexivity | | reflexivity].
  exfalso. apply N. now left.
Qed.

Lemma replace_spans_step (spans : list (nat * nat)) (pos : nat) (c : ascii)
  (t : str) :
  Forall (fun sp => S pos <= fst sp) spans ->
  nth_error t pos = Some c ->
  replace_spans "" spans pos t = c :: replace_spans "" spans (S pos) t.
Proof.
  intros F E.
  assert (K : skipn pos t = c :: skipn (S pos) t).
  { clear F. revert t E.
    induction pos as [|pos IH]; intros [|x t] E; try discriminate E.
    - cbn in E. injection E as ->. reflexivity.
    - cbn [nth_error] in E. cbn [skipn]. apply (IH t E). }
  destruct spans as [|[a b] rest]; cbn [replace_spans]; [exact K|].
  inversion F as [|? ? Ha _]; subst. cbn [fst] in Ha.
  unfold Py.slice. rewrite K.
  replace (a - pos) with (S (a - S pos)) by lia. reflexivity.
Qed.

(** [sub] with the empty replacement is the direct scan. *)
Lemma replace_scan_kept (s : str) :
  forall pre prev skip,
    replace_spans "" (scan p (length pre) prev s skip) (length pre + skip)
      (pre ++ s)
    = kept p prev s skip.
Proof.
  induction s as [|c s IH]; intros pre prev skip.
  - cbn [scan kept]. rewrite app_nil_r.
    assert (E : match skip with
                | 0 => attempts (candidates p prev [])
                | S _ => []
                end = []).
    { destruct skip; [|reflexivity]. rewrite attempts_nonnull.
      destruct (candidates p prev []) as [|n l] eqn:C; [reflexivity|].
      exfalso. assert (H : In n (candidates p prev [])) by (rewrite C; now left).
      apply ends_spec in H as [H _]. cbn in H.
      apply (nonnull prev []). rewrite C. left. lia. }
    rewrite E. cbn [map app replace_spans].
    apply skipn_all2. rewrite app_nil_r. lia.
  - cbn [scan kept].
    assert (Es : pre ++ c :: s = (pre ++ [c]) ++ s) by now rewrite <- app_assoc.
    assert (El : S (length pre) = length (pre ++ [c]))
      by (rewrite length_app; cbn; lia).
    destruct skip as [|k].
    + rewrite attempts_nonnull.
      destruct (candidates p prev (c :: s)) as [|n l] eqn:C.
      * cbn [map app last pred]. rewrite Nat.add_0_r.
        rewrite replace_spans_step with (c := c).
        -- f_equal. rewrite Es, El.
           rewrite <- (IH (pre ++ [c]) (Some c) 0). now rewrite Nat.add_0_r.
        -- apply Forall_forall. intros [a b] H. apply scan_ge in H. cbn. lia.
        -- rewrite nth_error_app2 by lia. now rewrite Nat.sub_diag.
      * cbn [map app last replace_spans]. rewrite Nat.add_0_r.
        unfold Py.slice. rewrite Nat.sub_diag.
        change (firstn 0 (skipn (length pre) (pre ++ c :: s))
                ++ list_ascii_of_string ""
                ++ replace_spans ""
                     (scan p (S (length pre)) (Some c) s (pred n))
                     (length pre + n) (pre ++ c :: s))
          with (replace_spans ""
                  (scan p (S (length pre)) (Some c) s (pred n))
                  (length pre + n) (pre ++ c :: s)).
        assert (Hn : n <> 0).
        { intros ->. apply (nonnull prev (c :: s)). rewrite C. now left. }
        rewrite Es, El.
        rewrite <- (IH (pre ++ [c]) (Some c) (pred n)).
        f_equal. rewrite <- El. lia.
    + cbn [map app]. rewrite Es, El.
      rewrite <- (IH (pre ++ [c]) (Some c) k). f_equal. rewrite <- El. lia.
Qed.

Lemma sub_kept (s : str) : sub p "" s = kept p None s 0.
Proof.
  unfold sub, finditer. exact (replace_scan_kept s [] None 0).
Qed.

Lemma kept_skip (s : str) :
  forall prev skip,
    kept p prev s skip = kept p (prev_at prev s skip) (skipn skip s) 0.
Proof.
  induction s as [|c s IH]; intros prev skip.
  - destruct skip; reflexivity.
  - destruct skip as [|k]; [reflexivity|].
    cbn [kept skipn]. rewrite IH. now rewrite prev_at_cons.
Qed.

(** The first match, if any, splits the text that is kept. *)
Lemma kept_first (s : str) :
  forall prev,
    (kept p prev s 0 = s
     /\ forall k, k <= length s -> match_at p prev s k = [])
    \/ exists a n,
         (forall j, j < a -> match_at p prev s j = [])
         /\ hd_error (match_at p prev s a) = Some n
         /\ 0 < n /\ a + n <= length s
         /\ kept p prev s 0
            = firstn a s
              ++ kept p (prev_at prev s (a + n)) (skipn (a + n) s) 0.
Proof.
  induction s as [|c s IH]; intros prev.
  - left. split; [reflexivity|]. intros k Hk. assert (k = 0) by (cbn in Hk; lia).
    subst. unfold match_at. cbn.
    destruct (candidates p prev []) as [|n l] eqn:C; [reflexivity|].
    exfalso. assert (H : In n (candidates p prev [])) by (rewrite C; now left).
    apply ends_spec in H as [H _]. cbn in H.
    apply (nonnull prev []). rewrite C. left. lia.
  - cbn [kept]. destruct (candidates p prev (c :: s)) as [|n l] eqn:C.
    + destruct (IH (Some c)) as [[E N] | (a & n & N & H & Hn & Hl & E)].
      * left. split; [now rewrite E|].
        intros [|k] Hk; [exact C|]. rewrite match_at_cons. apply N.
        cbn in Hk. lia.
      * right. exists (S a), n. rewrite match_at_cons.
        split; [|split; [exact H|split; [exact Hn|split; [cbn; lia|]]]].
        -- intros [|j] Hj; [exact C|]. rewrite match_at_cons. apply N. lia.
        -- rewrite E. cbn [firstn app plus skipn]. now rewrite prev_at_cons.
    + right. exists 0, n.
      assert (Hin : In n (candidates p prev (c :: s))) by (rewrite C; now left).
      assert (Hn : n <> 0).
      { intros ->. apply (nonnull prev (c :: s)). exact Hin. }
      apply ends_spec in Hin as [Hl _].
      split; [intros j Hj; lia|]. unfold match_at at 1. cbn [prev_at skipn].
      rewrite C. split; [reflexivity|]. split; [lia|]. split; [exact Hl|].
      cbn [firstn app plus]. rewrite kept_skip.
      destruct n as [|n]; [contradiction|]. cbn [pred].
      now rewrite prev_at_cons.
Qed.

End Kept.

(** *** The [WITH] pattern *)

(** A [WITH] clause at the head of a text is a candidate there. *)
Lemma with_head (m post : str) (prev : option ascii) :
  WithClause m -> candidates with_pattern prev (m ++ post) <> [].
Proof.
  intros W E.
  assert (M : Matches (flag with_pattern) (expr with_pattern) prev m post)
    by now apply with_matches.
  apply matches_iff_ends in M. unfold candidates in E. rewrite E in M.
  destruct M.
Qed.

Lemma with_clause_shape (m : str) :
  WithClause m ->
  m <> [] /\ ~ In "]"%char m.
Proof.
  intros (ws1 & kw & ws2 & clause & -> & N1 & S1 & K & N2 & S2 & N3 & C).
  split; [destruct ws1; [contradiction | discriminate]|].
  rewrite !in_app_iff. intros [H | [H | [H | H]]].
  - unfold all_space in S1. rewrite forallb_forall in S1. apply S1 in H.
    discriminate H.
  - apply (in_map Py.lower_char) in H. fold (Py.lower kw) in H.
    rewrite K in H. vm_compute in H.
    repeat (destruct H as [H | H]; [discriminate H|]). exact H.
  - unfold all_space in S2. rewrite forallb_forall in S2. apply S2 in H.
    discriminate H.
  - now apply C.
Qed.

Lemma no_match_at_bracket (prev : option ascii) (s : str) :
  candidates with_pattern prev ("]"%char :: s) = [].
Proof.
  destruct (candidates with_pattern prev ("]"%char :: s)) as [|n l] eqn:C;
    [reflexivity|].
  exfalso. assert (H : In n (candidates with_pattern prev ("]"%char :: s)))
    by (rewrite C; now left).
  apply ends_spec in H as [Hn M]. apply with_matches in M.
  destruct (with_clause_shape _ M) as [Hne Hb].
  destruct n as [|n]; [now apply Hne|]. apply Hb. cbn. now left.
Qed.

(** An occurrence in [a ++ b]: inside [a], inside [b], or across the
    seam, and then the first character of [b] belongs to it. *)
Lemma occurrence_split (pre m post a b : str) :
  pre ++ m ++ post = a ++ b ->
  (exists post', a = pre ++ m ++ post')
  \/ (exists pre', b = pre' ++ m ++ post)
  \/ (exists c, hd_error b = Some c /\ In c m).
Proof.
  rewrite app_assoc. intros E.
  apply app_eq_app in E as (l & [[E1 E2] | [E1 E2]]).
  - apply app_eq_app in E1 as (l' & [[E3 E4] | [E3 E4]]).
    + right; left. exists l'. now rewrite E2, E4, <- app_assoc.
    + destruct l as [|c l].
      * left. exists []. rewrite app_nil_r in E4. now rewrite E3, E4, app_nil_r.
      * right; right. exists c. rewrite E2, E4. split; [reflexivity|].
        apply in_app_iff. right. now left.
  - left. exists l. now rewrite E1, <- app_assoc.
Qed.

Lemma match_at_occurrence (prev : option ascii) (pre m post : str) :
  WithClause m ->
  match_at with_pattern prev (pre ++ m ++ post) (length pre) <> [].
Proof.
  intros W. unfold match_at. rewrite skipn_length_app. now apply with_head.
Qed.

(** Deleting the [WITH] clauses brings no new one together. *)
Lemma kept_no_with (n : nat) :
  forall s prev,
    length s <= n -> ~ HasWithClause (kept with_pattern prev s 0).
Proof.
  induction n as [|n IH]; intros s prev Hlen.
  - destruct s; [|cbn in Hlen; lia]. cbn.
    intros (pre & m & post & E & W). apply with_clause_shape in W as [Hne _].
    destruct pre, m; try discriminate E. now apply Hne.
  - destruct (kept_first with_pattern with_not_empty s prev)
      as [[E N] | (a & k & N & H & Hk & Hl & E)]; rewrite E.
    + intros (pre & m & post & Es & W).
      apply (match_at_occurrence prev pre m post W). rewrite <- Es.
      apply N. rewrite Es, length_app. lia.
    + set (rest := kept with_pattern (prev_at prev s (a + k))
                     (skipn (a + k) s) 0).
      assert (Hrest : ~ HasWithClause rest).
      { apply IH. rewrite length_skipn. lia. }
      assert (Shape : rest = [] \/ hd_error rest = Some "]"%char).
      { unfold match_at in H. apply with_first_end in H.
        rewrite skipn_skipn, (Nat.add_comm k a) in H. unfold rest.
        destruct (skipn (a + k) s) as [|c t]; [now left|].
        destruct H as [H | H]; [discriminate H|]. injection H as ->.
        right. cbn [kept]. now rewrite no_match_at_bracket. }
      intros (pre & m & post & Es & W).
      destruct (with_clause_shape m W) as [Hne Hb].
      symmetry in Es.
      apply occurrence_split in Es as [[post' Ea] | [[pre' Eb] | (c & Ec & Hc)]].
      * assert (Hs : s = pre ++ m ++ (post' ++ skipn a s)).
        { rewrite <- (firstn_skipn a s) at 1. rewrite Ea.
          now rewrite <- !app_assoc. }
        apply (match_at_occurrence prev pre m (post' ++ skipn a s) W).
        rewrite <- Hs. apply N.
        apply (f_equal (@length ascii)) in Ea.
        rewrite !length_app in Ea.
        pose proof (firstn_le_length a s).
        destruct m; [contradiction|]. cbn in Ea. lia.
      * apply Hrest. now exists pre', m, post.
      * destruct Shape as [S0 | S0]; rewrite S0 in Ec; [discriminate Ec|].
        injection Ec as <-. contradiction.
Qed.

Lemma infix_with (l t r : str) :
  HasWithClause t -> HasWithClause (l ++ t ++ r).
Proof.
  intros (pre & m & post & -> & W).
  exists (l ++ pre), m, (post ++ r). split; [now rewrite <- !app_assoc | exact W].
Qed.

(** The cleaned query holds no [WITH] clause: every one is deleted, and
    the deletions and the trimming bring no new one together. *)
Theorem clean_soql_no_with_clause (soql : str) :
  ~ HasWithClause (clean_soql soql).
Proof.
  unfold clean_soql, Py.strip.
  generalize (Py.strip_chars "[]" soql) as core. intros core H.
  destruct (strip_by_spec Py.isspace (sub with_pattern "" core))
    as (l & r & E & _).
  apply (infix_with l _ r) in H. rewrite <- E in H.
  rewrite (sub_kept with_pattern with_not_empty) in H.
  now apply (kept_no_with (length core) core None (le_n _)) in H.
Qed.

End NormalizerMore.

(* ================================================================= *)
(** * The claim on the normalizer *)

Module NormalizerClaims.

Import Re ReFacts PyFacts PatternFacts NormalizerFacts Explainer Stated
  Described Deleting ExtractorOrder NormalizerMore.





End NormalizerClaims.
